(** * subsearch: a shallow embedding of [subsearch.py]

    The program enumerates subdomains of a target domain: a wordlist-driven
    DNS brute force, four HTTP source adapters (crt.sh, HackerTarget,
    AlienVault OTX, urlscan.io), a union of the results and a sorted dump to
    a file.

    The embedding follows the source function by function.  The outside
    world (DNS, HTTP, the writability of paths, the completion order of the
    worker pool) is an environment [env]; what the program changes (the file
    system, standard output, the log of DNS lookups it issued) is a [state]
    threaded through a state-and-exception monad [M]. *)

From Stdlib Require Import ZArith Ascii String.
From stdpp Require Import base tactics option list sorting gmap sets strings pretty.

Local Open Scope Z_scope.

(** ** Python strings

    A [str] is modelled as a Rocq [string]; each character stands for the
    code point of the same number, so the model covers the strings whose
    code points are below 256.  The order [String.le] compares code points
    lexicographically, as Python compares [str]. *)

Module Str.

Definition LF : ascii := "010"%char.
Definition COMMA : ascii := ","%char.

(** [str.strip()] without argument removes the characters for which
    [str.isspace()] holds; below 256 these are TAB, LF, VT, FF, CR, the
    separators FS, GS, RS, US, the space, NEL (133) and NBSP (160). *)
Definition is_space (c : ascii) : bool :=
  let n := N_of_ascii c in
  ((9 <=? n) && (n <=? 13) || (28 <=? n) && (n <=? 32)
   || (n =? 133) || (n =? 160))%N.

Fixpoint lstrip (s : string) : string :=
  match s with
  | EmptyString => EmptyString
  | String c t => if is_space c then lstrip t else s
  end.

Fixpoint rstrip (s : string) : string :=
  match s with
  | EmptyString => EmptyString
  | String c t =>
      match rstrip t with
      | EmptyString => if is_space c then EmptyString else String c EmptyString
      | r => String c r
      end
  end.

(** [s.strip()] *)
Definition strip (s : string) : string := rstrip (lstrip s).

(** [s.replace(old, new)] for a one-character [old]. *)
Fixpoint replace (old : ascii) (new : string) (s : string) : string :=
  match s with
  | EmptyString => EmptyString
  | String c t =>
      if Ascii.eqb c old then new +:+ replace old new t
      else String c (replace old new t)
  end.

(** [s.split(sep)] for a one-character [sep]: never the empty list, the
    empty string splits into one empty field. *)
Fixpoint split (sep : ascii) (s : string) : list string :=
  match s with
  | EmptyString => [EmptyString]
  | String c t =>
      if Ascii.eqb c sep then EmptyString :: split sep t
      else match split sep t with
           | h :: r => String c h :: r
           | [] => [String c EmptyString]
           end
  end.

(** [all(c.isspace() for c in s)] *)
Fixpoint all_space (s : string) : bool :=
  match s with
  | EmptyString => true
  | String c t => is_space c && all_space t
  end.

(** [c in s] for a character [c]. *)
Fixpoint mem (c : ascii) (s : string) : bool :=
  match s with
  | EmptyString => false
  | String a t => Ascii.eqb a c || mem c t
  end.

(** The characters of a string, as [for ch in s] yields them. *)
Fixpoint chars (s : string) : list string :=
  match s with
  | EmptyString => []
  | String c t => String c EmptyString :: chars t
  end.

(** Text-mode reading with universal newlines: CR LF and a lone CR read
    as LF. *)
Fixpoint universal_newlines (s : string) : string :=
  match s with
  | EmptyString => EmptyString
  | String c t =>
      if Ascii.eqb c "013"%char then
        match t with
        | String d t' =>
            if Ascii.eqb d LF then String LF (universal_newlines t')
            else String LF (universal_newlines t)
        | EmptyString => String LF EmptyString
        end
      else String c (universal_newlines t)
  end.

(** The lines of a text, each with its terminating LF (the last one may
    lack it), as iterating a file object yields them. *)
Fixpoint lines_keepends (s : string) : list string :=
  match s with
  | EmptyString => []
  | String c t =>
      if Ascii.eqb c LF then String c EmptyString :: lines_keepends t
      else match lines_keepends t with
           | h :: r => String c h :: r
           | [] => [String c EmptyString]
           end
  end.

End Str.

(** ** Exceptions and results

    The exception classes the program can meet.  [NXDOMAIN], [NoAnswer],
    [LifetimeTimeout] and [NoNameservers] are classes of [dns.resolver];
    [EmptyLabel] is [dns.name.EmptyLabel]; [RequestException] stands for
    [requests.RequestException] and all its subclasses (connection errors,
    timeouts, and the JSON decoding error of [response.json()]). *)

Inductive exn : Type :=
  | NXDOMAIN
  | NoAnswer
  | LifetimeTimeout
  | NoNameservers
  | EmptyLabel
  | RequestException
  | KeyError (key : string)
  | TypeError
  | AttributeError
  | ValueError
  | OSError.

Global Instance exn_eq_dec : EqDecision exn.
Proof. solve_decision. Defined.

Inductive result (A : Type) : Type :=
  | Ok (a : A)
  | Raise (e : exn).
Global Arguments Ok {A} a.
Global Arguments Raise {A} e.

Definition is_ok {A} (r : result A) : bool :=
  match r with Ok _ => true | Raise _ => false end.

(** ** JSON values, as [response.json()] returns them

    [JObj] is a [dict]: its items in insertion order, with distinct keys
    ([json.loads] keeps one item per key).  Numbers are the integers. *)

#[local] Set Warnings "-register-all".
Inductive json : Type :=
  | JNull
  | JBool (b : bool)
  | JInt (z : Z)
  | JStr (s : string)
  | JArr (items : list json)
  | JObj (items : list (string * json)).

(** The values a [set] holds here: hashable scalars up to Python equality
    ([True == 1] and [False == 0], with equal hashes, so a set holds one
    element for both). *)
Inductive atom : Type :=
  | ANone
  | AInt (z : Z)
  | AStr (s : string).

Global Instance atom_eq_dec : EqDecision atom.
Proof. solve_decision. Defined.

Global Instance atom_countable : Countable atom.
Proof.
  refine (inj_countable'
    (λ a, match a with
          | ANone => inl ()
          | AInt z => inr (inl z)
          | AStr s => inr (inr s)
          end)
    (λ x, match x with
          | inl _ => ANone
          | inr (inl z) => AInt z
          | inr (inr s) => AStr s
          end) _).
  by intros [].
Defined.

Global Instance AStr_inj : Inj (=) (=) AStr.
Proof. by intros ?? [= ->]. Qed.

Module Py.

(** [d[key]] for a dict [d]. *)
Fixpoint assoc (key : string) (items : list (string * json)) : option json :=
  match items with
  | [] => None
  | (k, v) :: rest => if decide (k = key) then Some v else assoc key rest
  end.

(** [for x in v]: a list yields its items, a dict its keys, a string its
    characters; nothing else is iterable. *)
Definition iter (v : json) : result (list json) :=
  match v with
  | JArr items => Ok items
  | JObj items => Ok (JStr ∘ fst <$> items)
  | JStr s => Ok (JStr <$> Str.chars s)
  | _ => Raise TypeError
  end.

(** [v[key]] with a string key: only a dict accepts it. *)
Definition getitem (v : json) (key : string) : result json :=
  match v with
  | JObj items =>
      match assoc key items with
      | Some x => Ok x
      | None => Raise (KeyError key)
      end
  | _ => Raise TypeError
  end.

(** [v.get(key, default)]: only a dict has the method. *)
Definition get (v : json) (key : string) (default : json) : result json :=
  match v with
  | JObj items => Ok (from_option id default (assoc key items))
  | _ => Raise AttributeError
  end.

(** [v.replace(old, new).strip()]: only a string has the methods. *)
Definition replace_strip (v : json) (old : ascii) (new : string) : result string :=
  match v with
  | JStr s => Ok (Str.strip (Str.replace old new s))
  | _ => Raise AttributeError
  end.

(** [bool(v)] *)
Definition truthy (v : json) : bool :=
  match v with
  | JNull => false
  | JBool b => b
  | JInt z => negb (z =? 0)
  | JStr s => negb (String.eqb s "")
  | JArr items => negb (bool_decide (items = []))
  | JObj items => negb (bool_decide (items = []))
  end.

(** What [set.add(v)] stores: lists and dicts are unhashable. *)
Definition hashable (v : json) : result atom :=
  match v with
  | JNull => Ok ANone
  | JBool b => Ok (AInt (Z.b2z b))
  | JInt z => Ok (AInt z)
  | JStr s => Ok (AStr s)
  | JArr _ | JObj _ => Raise TypeError
  end.

End Py.

(** ** Sorting a set

    [sorted(s)] compares elements with [<]: two strings by code points, two
    integers by value; a string against an integer, or [None] against
    anything, raises [TypeError].  Sorting a list of distinct elements
    succeeds exactly when they are pairwise comparable, and the result does
    not depend on the order in which the set is iterated. *)

Definition atom_le (a b : atom) : Prop :=
  match a, b with
  | ANone, _ => True
  | AInt _, ANone => False
  | AInt x, AInt y => x ≤ y
  | AInt _, AStr _ => True
  | AStr s, AStr t => String.le s t
  | AStr _, _ => False
  end.

Global Instance atom_le_dec : RelDecision atom_le.
Proof. intros [] []; simpl; apply _. Defined.

Definition is_str (a : atom) : bool :=
  match a with AStr _ => true | _ => false end.
Definition is_int (a : atom) : bool :=
  match a with AInt _ => true | _ => false end.

Definition sortable (l : list atom) : bool :=
  (length l <=? 1)%nat || forallb is_str l || forallb is_int l.

Definition py_sorted (s : gset atom) : result (list atom) :=
  let l := elements s in
  if sortable l then Ok (merge_sort atom_le l) else Raise TypeError.

(** [sorted] on a set of strings. *)
Definition sorted_strings (s : gset string) : list string :=
  merge_sort String.le (elements s).

(** ** The world *)

Record request : Type := Request {
  req_url : string;
  req_headers : list (string * string);
  req_timeout : Z
}.

(** A response as the program reads it: [status_code], [text] and the
    outcome of [json()]. *)
Record response : Type := Response {
  status_code : Z;
  text : string;
  json_body : result json
}.

(** The environment of one run.  [resolve name] is the outcome of
    [dns.resolver.resolve(name, "A")] (the answer itself is not used),
    [http_get] that of [requests.get], [writable path] tells whether
    [open(path, "w")] succeeds, and [completion] drives the order in which
    the futures of the worker pool complete. *)
Record env : Type := Env {
  resolve : string → result unit;
  http_get : request → result response;
  writable : string → bool;
  completion : list nat
}.

(** What a run changes: the files (path to content), the objects passed to
    [print], one per call, and the A-record lookups issued. *)
Record state : Type := State {
  fs : gmap string string;
  printed : list atom;
  lookups : list string
}.

(** ** The monad: state that survives an exception *)

Definition M (A : Type) : Type := state → state * result A.

Definition ret {A} (a : A) : M A := λ st, (st, Ok a).
Definition raise {A} (e : exn) : M A := λ st, (st, Raise e).
Definition bind {A B} (m : M A) (k : A → M B) : M B :=
  λ st, match m st with
        | (st', Ok a) => k a st'
        | (st', Raise e) => (st', Raise e)
        end.

Declare Scope py_scope.
Delimit Scope py_scope with py.
Notation "x <- m ;; k" := (bind m (λ x, k))
  (at level 100, m at next level, right associativity) : py_scope.
Notation "m ;;; k" := (bind m (λ _, k))
  (at level 100, right associativity) : py_scope.
Local Open Scope py_scope.

Definition lift {A} (r : result A) : M A := λ st, (st, r).

(** [print(x)] *)
Definition print_obj (a : atom) : M unit :=
  λ st, (State (fs st) (printed st ++ [a]) (lookups st), Ok ()).
Definition print (s : string) : M unit := print_obj (AStr s).

(** [for x in l: body(x)] *)
Fixpoint for_each {A} (l : list A) (body : A → M unit) : M unit :=
  match l with
  | [] => ret ()
  | x :: rest => body x ;;; for_each rest body
  end.

(** [open(path, "r")] followed by iteration over the lines. *)
Definition read_lines (path : string) : M (list string) :=
  λ st, match fs st !! path with
        | Some content => (st, Ok (Str.lines_keepends (Str.universal_newlines content)))
        | None => (st, Raise OSError)
        end.

(** [open(path, "w")]: creates or truncates. *)
Definition open_w (e : env) (path : string) : M unit :=
  λ st, if writable e path
        then (State (<[path := ""]> (fs st)) (printed st) (lookups st), Ok ())
        else (st, Raise OSError).

(** [file.write(data)] on a file opened at [path]. *)
Definition write (path data : string) : M unit :=
  λ st, (State (<[path := from_option id "" (fs st !! path) +:+ data]> (fs st))
               (printed st) (lookups st), Ok ()).

(** ** The worker pool

    [as_completed] yields the submitted futures in some order.  Every list
    of picks gives an order: the next future to complete is the one at
    position [pick mod n] among the [n] still pending. *)

Fixpoint complete {A} (n : nat) (picks : list nat) (pending : list A) : list A :=
  match n with
  | O => []
  | S n' =>
      let k := (hd 0%nat picks `mod` length pending)%nat in
      match pending !! k with
      | Some x => x :: complete n' (tl picks) (delete k pending)
      | None => []
      end
  end.

Definition as_completed {A} (picks : list nat) (futures : list A) : list A :=
  complete (length futures) picks futures.

(** A submitted task runs to its end; the exception it raises, if any, is
    kept in the future. *)
Definition run_future {A} (task : M A) : M (result A) :=
  λ st, let '(st', r) := task st in (st', Ok r).

Fixpoint submit_all {A B} (task : A → M B) (args : list A) : M (list (A * result B)) :=
  match args with
  | [] => ret []
  | a :: rest =>
      r <- run_future (task a) ;;
      futures <- submit_all task rest ;;
      ret ((a, r) :: futures)
  end.

(** ** The program *)

Definition HEADERS : list (string * string) :=
  [("User-Agent",
    "Mozilla/5.0 (Windows NT 10.0; Win64; x64) AppleWebKit/537.36 (KHTML, like Gecko) Chrome/110.0.0.0 Safari/537.36")].

Definition WORDLIST : string := "subdomains.txt".

Definition is_RequestException (ex : exn) : bool :=
  match ex with RequestException => true | _ => false end.

(** The loop of an adapter: [step] adds to the local set [subdomains]; an
    exception leaves the loop with what the set holds by then. *)
Fixpoint add_each (step : json → gset atom → result (gset atom))
    (entries : list json) (subdomains : gset atom) : gset atom * result unit :=
  match entries with
  | [] => (subdomains, Ok ())
  | entry :: rest =>
      match step entry subdomains with
      | Ok subdomains' => add_each step rest subdomains'
      | Raise ex => (subdomains, Raise ex)
      end
  end.

Section Program.
Context (e : env).

Definition is_resolvable (subdomain : string) : M bool :=
  λ st,
    let st' := State (fs st) (printed st) (lookups st ++ [subdomain]) in
    match resolve e subdomain with
    | Ok _ => (st', Ok true)
    | Raise NXDOMAIN | Raise NoAnswer | Raise LifetimeTimeout => (st', Ok false)
    | Raise ex => (st', Raise ex)
    end.

(** The loop over the completed futures, [found] being [found_subdomains]. *)
Fixpoint collect (futures : list (string * result bool)) (found : list string)
    : M (list string) :=
  match futures with
  | [] => ret found
  | (sub, r) :: rest =>
      match r with
      | Ok true => print ("[FOUND] " +:+ sub) ;;; collect rest (found ++ [sub])
      | Ok false => collect rest found
      | Raise ex => raise ex
      end
  end.

(** Leaving the [with] block of the executor waits for every submitted
    task, also when the loop is left by an exception: all lookups are
    issued in any case. *)
Definition brute_force_subdomains (domain : string) : M (list string) :=
  lines <- read_lines WORDLIST ;;
  let subdomains := (λ line, Str.strip line +:+ "." +:+ domain) <$> lines in
  futures <- submit_all is_resolvable subdomains ;;
  collect (as_completed (completion e) futures) [].

(** [try: body  except requests.RequestException: print(msg)] followed by
    [return list(subdomains)]; the list is only ever merged into a set, so
    it is returned as the set it lists. *)
Definition except_request (body : gset atom * result unit) (msg : string)
    : M (gset atom) :=
  match body with
  | (subdomains, Ok _) => ret subdomains
  | (subdomains, Raise ex) =>
      if is_RequestException ex then print msg ;;; ret subdomains
      else raise ex
  end.

(** [requests.get(url, headers=HEADERS, timeout=10)], then [parse] on a
    200 status. *)
Definition fetch (url : string) (parse : response → gset atom * result unit)
    : gset atom * result unit :=
  match http_get e (Request url HEADERS 10) with
  | Raise ex => (∅, Raise ex)
  | Ok response =>
      if status_code response =? 200 then parse response else (∅, Ok ())
  end.

Definition crtsh_step (entry : json) (subdomains : gset atom) : result (gset atom) :=
  match Py.getitem entry "name_value" with
  | Raise ex => Raise ex
  | Ok subdomain =>
      match Py.replace_strip subdomain Str.LF "" with
      | Raise ex => Raise ex
      | Ok s => Ok ({[AStr s]} ∪ subdomains)
      end
  end.

Definition crtsh_parse (response : response) : gset atom * result unit :=
  match json_body response with
  | Raise ex => (∅, Raise ex)
  | Ok json_data =>
      match Py.iter json_data with
      | Raise ex => (∅, Raise ex)
      | Ok entries => add_each crtsh_step entries ∅
      end
  end.

Definition crtsh_enum (domain : string) : M (gset atom) :=
  let url := "https://crt.sh/?q=%25." +:+ domain +:+ "&output=json" in
  except_request (fetch url crtsh_parse)
    "[ERROR] Failed to fetch data from crt.sh".

(** [parts] is never empty, so the test [len(parts) > 0] always passes. *)
Definition hackertarget_line (subdomains : gset atom) (result_ : string) : gset atom :=
  let parts := Str.split Str.COMMA result_ in
  match parts with
  | part0 :: _ => {[AStr part0]} ∪ subdomains
  | [] => subdomains
  end.

Definition hackertarget_parse (response : response) : gset atom * result unit :=
  let results := Str.split Str.LF (text response) in
  (foldl hackertarget_line ∅ results, Ok ()).

Definition hackertarget_enum (domain : string) : M (gset atom) :=
  let url := "https://api.hackertarget.com/hostsearch/?q=" +:+ domain in
  except_request (fetch url hackertarget_parse)
    "[ERROR] Failed to fetch data from HackerTarget".

Definition alienvault_step (entry : json) (subdomains : gset atom) : result (gset atom) :=
  match Py.getitem entry "hostname" with
  | Raise ex => Raise ex
  | Ok hostname =>
      match Py.hashable hostname with
      | Raise ex => Raise ex
      | Ok a => Ok ({[a]} ∪ subdomains)
      end
  end.

Definition alienvault_parse (response : response) : gset atom * result unit :=
  match json_body response with
  | Raise ex => (∅, Raise ex)
  | Ok json_data =>
      match Py.get json_data "passive_dns" (JArr []) with
      | Raise ex => (∅, Raise ex)
      | Ok passive_dns =>
          match Py.iter passive_dns with
          | Raise ex => (∅, Raise ex)
          | Ok entries => add_each alienvault_step entries ∅
          end
      end
  end.

Definition alienvault_enum (domain : string) : M (gset atom) :=
  let url := "https://otx.alienvault.com/api/v1/indicators/domain/" +:+ domain
             +:+ "/passive_dns" in
  except_request (fetch url alienvault_parse)
    "[ERROR] Failed to fetch data from AlienVault".

Definition urlscan_step (result_ : json) (subdomains : gset atom) : result (gset atom) :=
  match Py.get result_ "page" (JObj []) with
  | Raise ex => Raise ex
  | Ok page =>
      match Py.get page "domain" (JStr "") with
      | Raise ex => Raise ex
      | Ok page_domain =>
          if Py.truthy page_domain then
            match Py.hashable page_domain with
            | Raise ex => Raise ex
            | Ok a => Ok ({[a]} ∪ subdomains)
            end
          else Ok subdomains
      end
  end.

Definition urlscan_parse (response : response) : gset atom * result unit :=
  match json_body response with
  | Raise ex => (∅, Raise ex)
  | Ok json_data =>
      match Py.get json_data "results" (JArr []) with
      | Raise ex => (∅, Raise ex)
      | Ok results =>
          match Py.iter results with
          | Raise ex => (∅, Raise ex)
          | Ok entries => add_each urlscan_step entries ∅
          end
      end
  end.

Definition urlscan_enum (domain : string) : M (gset atom) :=
  let url := "https://urlscan.io/api/v1/search/?q=domain:" +:+ domain
             +:+ "&size=1000" in
  except_request (fetch url urlscan_parse)
    "[ERROR] Failed to fetch data from urlscan.io".

Definition NL : string := String Str.LF "".

Definition enumerate_subdomains (domain : string) : M (gset atom) :=
  let all_subdomains : gset atom := ∅ in
  print (NL +:+ "[+] Starting subdomain enumeration..." +:+ NL) ;;;
  print "[*] Running brute-force subdomain enumeration..." ;;;
  found <- brute_force_subdomains domain ;;
  let all_subdomains := all_subdomains ∪ list_to_set (AStr <$> found) in
  print "[*] Fetching subdomains from crt.sh..." ;;;
  s <- crtsh_enum domain ;;
  let all_subdomains := all_subdomains ∪ s in
  print "[*] Fetching subdomains from HackerTarget..." ;;;
  s <- hackertarget_enum domain ;;
  let all_subdomains := all_subdomains ∪ s in
  print "[*] Fetching subdomains from AlienVault..." ;;;
  s <- alienvault_enum domain ;;
  let all_subdomains := all_subdomains ∪ s in
  print "[*] Fetching subdomains from Urlscan.io..." ;;;
  s <- urlscan_enum domain ;;
  let all_subdomains := all_subdomains ∪ s in
  print (NL +:+ "[+] Found " +:+ pretty (size all_subdomains)
         +:+ " unique subdomains!" +:+ NL) ;;;
  subs <- lift (py_sorted all_subdomains) ;;
  for_each subs print_obj ;;;
  ret all_subdomains.

(** [sub + "\n"]: only a string can be added to a string. *)
Definition add_newline (sub : atom) : result string :=
  match sub with
  | AStr s => Ok (s +:+ NL)
  | _ => Raise TypeError
  end.

Definition save_results (subdomains : gset atom) (output_file : string) : M unit :=
  open_w e output_file ;;;
  subs <- lift (py_sorted subdomains) ;;
  for_each subs (λ sub, data <- lift (add_newline sub) ;; write output_file data) ;;;
  print (NL +:+ "[+] Results saved to " +:+ output_file).

(** The script body, after the command line is parsed. *)
Definition main (domain output : string) : M unit :=
  subdomains <- enumerate_subdomains domain ;;
  save_results subdomains output.

End Program.

(** ** Vocabulary of the statements *)

Global Instance result_eq_dec `{EqDecision A} : EqDecision (result A).
Proof. solve_decision. Defined.

(** The four source adapters under one name. *)
Inductive provider : Type := CrtSh | HackerTarget | AlienVault | UrlScan.

Global Instance provider_eq_dec : EqDecision provider.
Proof. solve_decision. Defined.

Definition providers : list provider := [CrtSh; HackerTarget; AlienVault; UrlScan].

Definition adapter (e : env) (p : provider) : string → M (gset atom) :=
  match p with
  | CrtSh => crtsh_enum e
  | HackerTarget => hackertarget_enum e
  | AlienVault => alienvault_enum e
  | UrlScan => urlscan_enum e
  end.

Definition adapter_url (p : provider) (domain : string) : string :=
  match p with
  | CrtSh => "https://crt.sh/?q=%25." +:+ domain +:+ "&output=json"
  | HackerTarget => "https://api.hackertarget.com/hostsearch/?q=" +:+ domain
  | AlienVault => "https://otx.alienvault.com/api/v1/indicators/domain/" +:+ domain
                  +:+ "/passive_dns"
  | UrlScan => "https://urlscan.io/api/v1/search/?q=domain:" +:+ domain +:+ "&size=1000"
  end.

Definition adapter_request (p : provider) (domain : string) : request :=
  Request (adapter_url p domain) HEADERS 10.

Definition adapter_msg (p : provider) : string :=
  match p with
  | CrtSh => "[ERROR] Failed to fetch data from crt.sh"
  | HackerTarget => "[ERROR] Failed to fetch data from HackerTarget"
  | AlienVault => "[ERROR] Failed to fetch data from AlienVault"
  | UrlScan => "[ERROR] Failed to fetch data from urlscan.io"
  end.

(** Which adapters call [response.json()]. *)
Definition reads_json (p : provider) : bool :=
  match p with HackerTarget => false | _ => true end.

Definition printing (st : state) (out : list atom) : state :=
  State (fs st) (printed st ++ out) (lookups st).

Definition looking_up (st : state) (names : list string) : state :=
  State (fs st) (printed st) (lookups st ++ names).

Definition initial : state := State ∅ [] [].

(** What the Resolver answers for a name, and what an adapter contributes,
    in the environment [e]. *)
Definition verdict (e : env) (name : string) : result bool :=
  (is_resolvable e name initial).2.

Definition contribution (e : env) (p : provider) (domain : string) : result (gset atom) :=
  (adapter e p domain initial).2.

(** The candidates of the brute force for the lines of a wordlist. *)
Definition candidates (domain : string) (lines : list string) : list string :=
  (λ line, Str.strip line +:+ "." +:+ domain) <$> lines.

Definition wordlist_lines (content : string) : list string :=
  Str.lines_keepends (Str.universal_newlines content).

(** The failures an adapter absorbs, and whether it prints its message. *)
Inductive absorbed (p : provider) : result response → bool → Prop :=
  | absorbed_status r :
      status_code r ≠ 200 → absorbed p (Ok r) false
  | absorbed_transport :
      absorbed p (Raise RequestException) true
  | absorbed_decode r :
      status_code r = 200 → reads_json p = true →
      json_body r = Raise RequestException → absorbed p (Ok r) true.

(** A text file holding the given lines. *)
Definition file_lines (l : list string) : string :=
  foldr (λ h rest, h +:+ NL +:+ rest) "" l.

Definition strict_lt (s t : string) : Prop := String.le s t ∧ s ≠ t.

(** A crt.sh entry with the name [v]. *)
Definition crtsh_entry (entry : json) (v : string) : Prop :=
  ∃ items, entry = JObj items ∧ Py.assoc "name_value" items = Some (JStr v).

Definition crtsh_name (v : string) : string :=
  Str.strip (Str.replace Str.LF "" v).

(** A urlscan.io entry and its [page.domain]: absent when the entry has no
    [page] or the page has no [domain]. *)
Inductive urlscan_entry : json → option string → Prop :=
  | urlscan_no_page items :
      Py.assoc "page" items = None → urlscan_entry (JObj items) None
  | urlscan_no_domain items page :
      Py.assoc "page" items = Some (JObj page) →
      Py.assoc "domain" page = None → urlscan_entry (JObj items) None
  | urlscan_domain items page d :
      Py.assoc "page" items = Some (JObj page) →
      Py.assoc "domain" page = Some (JStr d) → urlscan_entry (JObj items) (Some d).

(** The domains an adapter keeps: present and not the empty string (the
    code tests the truth value of [page_domain], whose default is [""]). *)
Definition kept_domains (ds : list (option string)) : list string :=
  filter (λ d, d ≠ "") (omap id ds).

(** ** Concrete worlds used below *)

Definition example_env (answers : request → result response) : env :=
  Env (λ name, if decide (name = "www.example.com") then Ok () else Raise NXDOMAIN)
      answers (λ _, true) [1%nat; 0%nat].

Definition example_state : state :=
  State {[ WORDLIST := "www
mail

" ]} [] [].

Definition hackertarget_body : string :=
  "a.example.com,1.2.3.4
b.example.com,5.6.7.8
".

Definition servfail_env : env :=
  Env (λ _, Raise NoNameservers) (λ _, Raise RequestException) (λ _, true) [].

Definition missing_field_env : env :=
  example_env (λ _, Ok (Response 200 "" (Ok (JArr [JObj []])))).

Definition not_found_env : env :=
  example_env (λ _, Ok (Response 404 "" (Raise RequestException))).

(** The exceptions the Resolver turns into [False]. *)
Definition caught (ex : exn) : bool :=
  bool_decide (ex ∈ [NXDOMAIN; NoAnswer; LifetimeTimeout]).

(** The parsing half of each adapter, and what an adapter prints. *)
Definition parser (p : provider) : response → gset atom * result unit :=
  match p with
  | CrtSh => crtsh_parse
  | HackerTarget => hackertarget_parse
  | AlienVault => alienvault_parse
  | UrlScan => urlscan_parse
  end.

Definition adapter_out (e : env) (p : provider) (domain : string) : list atom :=
  printed (adapter e p domain initial).1.

(** The loop over the completed futures without the state: what it
    prints and what it returns or raises. *)
Fixpoint collect_pure (futures : list (string * result bool)) (found : list string)
    : list atom * result (list string) :=
  match futures with
  | [] => ([], Ok found)
  | (sub, r) :: rest =>
      match r with
      | Ok true =>
          let '(out, res) := collect_pure rest (found ++ [sub]) in
          (AStr ("[FOUND] " +:+ sub) :: out, res)
      | Ok false => collect_pure rest found
      | Raise ex => ([], Raise ex)
      end
  end.

(** The futures of the brute force, in submission order. *)
Definition futures_of (e : env) (subdomains : list string) : list (string * result bool) :=
  (λ sub, (sub, verdict e sub)) <$> subdomains.

Definition with_file (st : state) (path content : string) : state :=
  State (<[path := content]> (fs st)) (printed st) (lookups st).

(** The brute force without the state: the lookups it issues, what it
    prints and what it returns or raises, for the files [files]. *)
Definition brute (e : env) (domain : string) (files : gmap string string)
    : list string * (list atom * result (list string)) :=
  match files !! WORDLIST with
  | None => ([], ([], Raise OSError))
  | Some content =>
      let subdomains := candidates domain (wordlist_lines content) in
      (subdomains,
       collect_pure (as_completed (completion e) (futures_of e subdomains)) [])
  end.

(** What the Aggregator prints between its first line and the listing. *)
Definition narration (e : env) (domain : string) (files : gmap string string)
    (all_subdomains : gset atom) : list atom :=
  [AStr (NL +:+ "[+] Starting subdomain enumeration..." +:+ NL);
   AStr "[*] Running brute-force subdomain enumeration..."]
  ++ (brute e domain files).2.1
  ++ [AStr "[*] Fetching subdomains from crt.sh..."]
  ++ adapter_out e CrtSh domain
  ++ [AStr "[*] Fetching subdomains from HackerTarget..."]
  ++ adapter_out e HackerTarget domain
  ++ [AStr "[*] Fetching subdomains from AlienVault..."]
  ++ adapter_out e AlienVault domain
  ++ [AStr "[*] Fetching subdomains from Urlscan.io..."]
  ++ adapter_out e UrlScan domain
  ++ [AStr (NL +:+ "[+] Found " +:+ pretty (size all_subdomains)
            +:+ " unique subdomains!" +:+ NL)].

(** A run in which crt.sh answers 404, HackerTarget answers one host, and
    the two other providers answer an empty JSON object. *)
Definition mixed_env : env :=
  example_env (λ req,
    if decide (req_url req = adapter_url CrtSh "example.com")
    then Ok (Response 404 "" (Raise RequestException))
    else if decide (req_url req = adapter_url HackerTarget "example.com")
    then Ok (Response 200 "www.example.com,1.2.3.4" (Raise RequestException))
    else Ok (Response 200 "" (Ok (JObj [])))).

Definition mixed_found (p : provider) : gset string :=
  match p with
  | HackerTarget => {["www.example.com"]}
  | _ => ∅
  end.

(** A string that does not begin with whitespace. *)
Definition starts_clean (s : string) : bool :=
  match s with
  | EmptyString => true
  | String c _ => negb (Str.is_space c)
  end.

(** The responses of the examples. *)
Definition crtsh_example : json :=
  JArr [JObj [("name_value", JStr "a.example.com
")]].

Definition urlscan_example : json :=
  JObj [("results", JArr [JObj [("page", JObj [("domain", JStr "a.example.com")])]])].

(** ** Vocabulary of the further properties *)

(** An AlienVault entry with the hostname [h]. *)
Definition alienvault_entry (entry : json) (h : string) : Prop :=
  ∃ items, entry = JObj items ∧ Py.assoc "hostname" items = Some (JStr h).

Definition is_object (v : json) : bool :=
  match v with JObj _ => true | _ => false end.

(** The first comma-separated field of a line. *)
Fixpoint first_field (s : string) : string :=
  match s with
  | EmptyString => EmptyString
  | String c t => if Ascii.eqb c Str.COMMA then EmptyString else String c (first_field t)
  end.

(** A computation that leaves every file as it is, one that issues no
    lookup, and one that writes to no file but [output]. *)
Definition keeps_files {A} (m : M A) : Prop := ∀ st, fs (m st).1 = fs st.
Definition keeps_lookups {A} (m : M A) : Prop := ∀ st, lookups (m st).1 = lookups st.
Definition writes_only {A} (output : string) (m : M A) : Prop :=
  ∀ st path, path ≠ output → fs (m st).1 !! path = fs st !! path.

(** The adapters that run before [p]. *)
Definition earlier (p : provider) : list provider :=
  match p with
  | CrtSh => []
  | HackerTarget => [CrtSh]
  | AlienVault => [CrtSh; HackerTarget]
  | UrlScan => [CrtSh; HackerTarget; AlienVault]
  end.

(** The line that announces a found subdomain. *)
Definition found_line (sub : string) : atom := AStr ("[FOUND] " +:+ sub).

(** The line that announces the number of subdomains. *)
Definition count_line (n : nat) : atom :=
  AStr (NL +:+ "[+] Found " +:+ pretty n +:+ " unique subdomains!" +:+ NL).

(** A world in which nothing resolves and every provider answers 500. *)
Definition quiet_env : env :=
  Env (λ _, Raise NXDOMAIN) (λ _, Ok (Response 500 "" (Raise RequestException)))
      (λ _, true) [].

(** * Properties *)

Ltac set_eq_tauto :=
  apply set_eq; intros ?;
  rewrite ?elem_of_union, ?elem_of_singleton, ?elem_of_empty; tauto.

(** ** States *)

Lemma printing_nil st : printing st [] = st.
Proof. destruct st; unfold printing; simpl. by rewrite app_nil_r. Qed.

Lemma printing_app st out1 out2 :
  printing (printing st out1) out2 = printing st (out1 ++ out2).
Proof. unfold printing; simpl. by rewrite app_assoc. Qed.

Lemma looking_up_nil st : looking_up st [] = st.
Proof. destruct st; unfold looking_up; simpl. by rewrite app_nil_r. Qed.

Lemma looking_up_app st l1 l2 :
  looking_up (looking_up st l1) l2 = looking_up st (l1 ++ l2).
Proof. unfold looking_up; simpl. by rewrite app_assoc. Qed.

Lemma printing_looking_up st out names :
  printing (looking_up st names) out = looking_up (printing st out) names.
Proof. done. Qed.

(** ** The monad *)

Lemma bind_ok {A B} (m : M A) (k : A → M B) st st' a :
  m st = (st', Ok a) → bind m k st = k a st'.
Proof. intros H. unfold bind. by rewrite H. Qed.

Lemma bind_raise {A B} (m : M A) (k : A → M B) st st' ex :
  m st = (st', Raise ex) → bind m k st = (st', Raise ex).
Proof. intros H. unfold bind. by rewrite H. Qed.

Lemma print_run s st : print s st = (printing st [AStr s], Ok ()).
Proof. done. Qed.

(** ** The Resolver *)

Lemma is_resolvable_run e name st :
  is_resolvable e name st = (looking_up st [name], verdict e name).
Proof.
  unfold verdict, is_resolvable, looking_up.
  by destruct (resolve e name) as [u|[]].
Qed.

(** C2, as amended: the Resolver issues one lookup and answers [True] when
    it succeeds, [False] when it raises [NXDOMAIN], [NoAnswer] or
    [LifetimeTimeout]; any other exception of the lookup reaches the
    caller. *)
Theorem is_resolvable_outcome e name st :
  (is_resolvable e name st).1 = looking_up st [name] ∧
  (is_resolvable e name st).2 =
    match resolve e name with
    | Ok _ => Ok true
    | Raise ex => if caught ex then Ok false else Raise ex
    end.
Proof.
  rewrite is_resolvable_run. split; [done|].
  unfold verdict, is_resolvable; simpl.
  by destruct (resolve e name) as [u|[]].
Qed.

(** C2 fails as stated: when every name server fails to answer, the
    lookup raises [NoNameservers], and so does the Resolver. *)
Lemma is_resolvable_propagates :
  resolve servfail_env "www.example.com" = Raise NoNameservers ∧
  (is_resolvable servfail_env "www.example.com" initial).2 = Raise NoNameservers ∧
  ¬ (∀ e name st, ∃ b, (is_resolvable e name st).2 = Ok b).
Proof.
  split; [done|]. split; [done|].
  intros H. destruct (H servfail_env "www.example.com" initial) as [b Hb].
  discriminate Hb.
Qed.

(** ** The source adapters *)

Lemma adapter_unfold e p domain :
  adapter e p domain =
  except_request (fetch e (adapter_url p domain) (parser p)) (adapter_msg p).
Proof. by destruct p. Qed.

Lemma except_request_run body msg st :
  except_request body msg st =
  match body.2 with
  | Ok _ => (st, Ok body.1)
  | Raise ex =>
      if is_RequestException ex then (printing st [AStr msg], Ok body.1)
      else (st, Raise ex)
  end.
Proof.
  destruct body as [s [u|ex]]; simpl; [done|].
  by destruct (is_RequestException ex).
Qed.

(** An adapter reads the environment only: its contribution does not
    depend on the state, which it changes by printing at most. *)
Lemma adapter_run e p domain st :
  adapter e p domain st =
  (printing st (adapter_out e p domain), contribution e p domain).
Proof.
  unfold adapter_out, contribution. rewrite adapter_unfold, !except_request_run.
  destruct (fetch e (adapter_url p domain) (parser p)) as [s [u|ex]]; simpl.
  - by rewrite printing_nil.
  - destruct (is_RequestException ex); simpl; [done|]. by rewrite printing_nil.
Qed.

Lemma adapter_non_200 e p domain st r :
  http_get e (adapter_request p domain) = Ok r → status_code r ≠ 200 →
  adapter e p domain st = (st, Ok ∅).
Proof.
  intros Hr Hs. rewrite adapter_unfold, except_request_run. unfold fetch.
  fold (adapter_request p domain). rewrite Hr.
  apply Z.eqb_neq in Hs. by rewrite Hs.
Qed.

(** C3, as amended: on a status other than 200 an adapter returns the
    empty set and prints nothing; when the request raises a
    [RequestException], or the body of a 200 response fails to decode as
    JSON with one, it prints its message and returns the empty set.
    Nothing is raised in these cases. *)
Theorem adapter_absorbs e p domain st msg :
  absorbed p (http_get e (adapter_request p domain)) msg →
  adapter e p domain st =
  (if msg then printing st [AStr (adapter_msg p)] else st, Ok ∅).
Proof.
  intros H. rewrite adapter_unfold, except_request_run. unfold fetch.
  fold (adapter_request p domain).
  inversion H as [r Hs Hr|Hr|r Hs Hp Hj Hr]; clear H; subst msg.
  - apply Z.eqb_neq in Hs. by rewrite Hs.
  - done.
  - apply Z.eqb_eq in Hs. rewrite Hs.
    destruct p; try discriminate Hp; simpl;
      unfold crtsh_parse, alienvault_parse, urlscan_parse; by rewrite Hj.
Qed.

Lemma adapter_absorbs_witness :
  absorbed CrtSh (http_get not_found_env (adapter_request CrtSh "example.com")) false ∧
  adapter not_found_env CrtSh "example.com" example_state = (example_state, Ok ∅).
Proof.
  assert (H : absorbed CrtSh
    (http_get not_found_env (adapter_request CrtSh "example.com")) false)
    by (by apply absorbed_status).
  split; [exact H|].
  exact (adapter_absorbs not_found_env CrtSh "example.com" example_state false H).
Defined.

(** C3 fails as stated: a crt.sh entry without [name_value] makes the
    adapter raise [KeyError]. *)
Lemma crtsh_missing_field_raises :
  http_get missing_field_env (adapter_request CrtSh "example.com")
    = Ok (Response 200 "" (Ok (JArr [JObj []]))) ∧
  (crtsh_enum missing_field_env "example.com" initial).2 = Raise (KeyError "name_value").
Proof. split; reflexivity. Qed.

(** ** HackerTarget *)

Lemma split_nonempty sep s : Str.split sep s ≠ [].
Proof.
  destruct s as [|c t]; simpl; [done|].
  destruct (Ascii.eqb c sep); [done|]. by destruct (Str.split sep t).
Qed.

Lemma split_empty sep : Str.split sep "" = [""].
Proof. done. Qed.

(** An empty line is not skipped: its only field is the empty string, and
    the adapter adds it. *)
Lemma hackertarget_line_empty subdomains :
  hackertarget_line subdomains "" = {[AStr ""]} ∪ subdomains.
Proof. done. Qed.

Lemma hackertarget_lines_keep l subdomains a :
  a ∈ subdomains → a ∈ foldl hackertarget_line subdomains l.
Proof.
  revert subdomains. induction l as [|line l IH]; intros subdomains Ha; [done|].
  simpl. apply IH. unfold hackertarget_line.
  destruct (Str.split Str.COMMA line); [done|]. apply elem_of_union. by right.
Qed.

Lemma hackertarget_lines_empty l subdomains :
  "" ∈ l → AStr "" ∈ foldl hackertarget_line subdomains l.
Proof.
  revert subdomains. induction l as [|line l IH]; intros subdomains Hin.
  - by apply elem_of_nil in Hin.
  - apply elem_of_cons in Hin as [<-|Hin]; simpl; [|by apply IH].
    apply hackertarget_lines_keep. rewrite hackertarget_line_empty.
    apply elem_of_union. left. by apply elem_of_singleton.
Qed.

Lemma split_trailing_separator sep s :
  ∃ h r, Str.split sep (s +:+ String sep "") = h :: r ++ [""].
Proof.
  induction s as [|c t (h & r & IH)].
  - exists "", []. change ("" +:+ String sep "") with (String sep "").
    simpl. by rewrite Ascii.eqb_refl.
  - change (String c t +:+ String sep "") with (String c (t +:+ String sep "")).
    simpl. rewrite IH. destruct (Ascii.eqb c sep).
    + by exists "", (h :: r).
    + by exists (String c h), r.
Qed.

(** Every body that ends with a newline gives the empty string as a
    hostname. *)
Lemma hackertarget_trailing_newline status json_result body :
  AStr "" ∈ (hackertarget_parse
               (Response status (body +:+ String Str.LF "") json_result)).1.
Proof.
  unfold hackertarget_parse; simpl. apply hackertarget_lines_empty.
  destruct (split_trailing_separator Str.LF body) as (h & r & ->).
  right. apply elem_of_app. right. left.
Qed.

(** C1, on the code: on the body of the claim the adapter returns the two
    hostnames and the empty string, which the empty line after the last
    newline contributes. *)
Theorem hackertarget_example_has_empty_name lookup can_write picks json_result domain st :
  let e := Env lookup (λ _, Ok (Response 200 hackertarget_body json_result))
               can_write picks in
  ∃ s, hackertarget_enum e domain st = (st, Ok s) ∧
       (∀ a, a ∈ s ↔ a = AStr "a.example.com" ∨ a = AStr "b.example.com" ∨ a = AStr "") ∧
       s ≠ {[AStr "a.example.com"; AStr "b.example.com"]}.
Proof.
  intros e.
  exists ({[AStr ""]} ∪ ({[AStr "b.example.com"]} ∪ ({[AStr "a.example.com"]} ∪ ∅))).
  split; [reflexivity|]. split.
  - intros a. rewrite !elem_of_union, !elem_of_singleton, elem_of_empty. tauto.
  - intros H.
    assert (Hin : AStr "" ∈ ({[AStr "a.example.com"; AStr "b.example.com"]} : gset atom)).
    { rewrite <- H, !elem_of_union, elem_of_singleton. by left. }
    apply elem_of_union in Hin as [Hin|Hin]; apply elem_of_singleton in Hin;
      discriminate Hin.
Qed.

(** ** The worker pool *)

Lemma complete_Permutation {A} n picks (l : list A) :
  length l = n → complete n picks l ≡ₚ l.
Proof.
  revert picks l. induction n as [|n IH]; intros picks l Hlen; simpl.
  - by destruct l.
  - assert (Hk : (hd 0%nat picks `mod` length l < length l)%nat).
    { apply Nat.mod_upper_bound. rewrite Hlen. lia. }
    destruct (lookup_lt_is_Some_2 _ _ Hk) as [x Hx]. rewrite Hx.
    etrans; [|symmetry; apply (delete_Permutation l _ x Hx)]. constructor.
    apply IH. rewrite length_delete by eauto. rewrite Hlen. lia.
Qed.

(** Whatever the picks, every future completes exactly once. *)
Lemma as_completed_Permutation {A} picks (l : list A) :
  as_completed picks l ≡ₚ l.
Proof. by apply complete_Permutation. Qed.

(** Every order of completion is the order of some picks. *)
Lemma as_completed_any_order {A} (l l' : list A) :
  l' ≡ₚ l → ∃ picks, as_completed picks l = l'.
Proof.
  unfold as_completed. revert l. induction l' as [|x l' IH]; intros l Hp.
  - apply Permutation_nil_l in Hp. subst l. by exists [].
  - assert (Hin : x ∈ l) by (rewrite <- Hp; left).
    apply list_elem_of_lookup in Hin as [k Hk].
    assert (Hd : l' ≡ₚ delete k l).
    { apply (Permutation_cons_inv (a := x)).
      by rewrite Hp, <- (delete_Permutation l k x Hk). }
    destruct (IH _ Hd) as [picks Hpicks].
    pose proof (lookup_lt_Some _ _ _ Hk) as Hlt.
    exists (k :: picks). destruct l as [|y l]; [done|].
    cbn [length complete hd tl]. rewrite Nat.mod_small by done.
    rewrite Hk. f_equal. rewrite <- Hpicks. f_equal.
    rewrite length_delete by eauto. simpl. lia.
Qed.

Lemma submit_all_run e subdomains st :
  submit_all (is_resolvable e) subdomains st =
  (looking_up st subdomains, Ok (futures_of e subdomains)).
Proof.
  revert st. induction subdomains as [|sub rest IH]; intros st; simpl.
  - by rewrite looking_up_nil.
  - unfold bind, run_future. rewrite is_resolvable_run, IH.
    by rewrite looking_up_app.
Qed.

Lemma collect_run futures found st :
  collect futures found st =
  (printing st (collect_pure futures found).1, (collect_pure futures found).2).
Proof.
  revert found st. induction futures as [|[sub [[]|ex]] rest IH]; intros found st; simpl.
  - by rewrite printing_nil.
  - unfold bind, print, print_obj. rewrite IH.
    destruct (collect_pure rest (found ++ [sub])) as [out res]; simpl.
    unfold printing; simpl. by rewrite <- app_assoc.
  - apply IH.
  - by rewrite printing_nil.
Qed.

(** The brute force, spelled out: it fails when the wordlist cannot be
    opened; otherwise it looks up every candidate and goes through the
    futures in their order of completion. *)
Lemma brute_force_run e domain st :
  brute_force_subdomains e domain st =
  match fs st !! WORDLIST with
  | None => (st, Raise OSError)
  | Some content =>
      let subdomains := candidates domain (wordlist_lines content) in
      let done := collect_pure (as_completed (completion e) (futures_of e subdomains)) [] in
      (printing (looking_up st subdomains) done.1, done.2)
  end.
Proof.
  unfold brute_force_subdomains, bind, read_lines.
  destruct (fs st !! WORDLIST) as [content|]; [|done].
  fold (wordlist_lines content).
  fold (candidates domain (wordlist_lines content)).
  by rewrite submit_all_run, collect_run.
Qed.

Lemma collect_pure_found futures found res :
  (collect_pure futures found).2 = Ok res →
  res = found ++ (fst <$> filter (λ f, f.2 = Ok true) futures).
Proof.
  revert found.
  induction futures as [|[sub [[]|ex]] rest IH]; intros found; cbn [collect_pure].
  - intros [= <-]. by rewrite app_nil_r.
  - destruct (collect_pure rest (found ++ [sub])) as [out r] eqn:Hrest.
    intros Hr. specialize (IH (found ++ [sub])). rewrite Hrest in IH.
    rewrite (IH Hr), filter_cons_True by done. by rewrite <- app_assoc.
  - intros Hr. rewrite filter_cons_False by (simpl; congruence). by apply IH.
  - done.
Qed.

Lemma collect_pure_total futures found :
  Forall (λ f, is_ok f.2 = true) futures →
  is_ok (collect_pure futures found).2 = true.
Proof.
  intros Hall. revert found.
  induction Hall as [|[sub [[]|ex]] rest Hok Hall IH]; intros found; simpl; try done.
  specialize (IH (found ++ [sub])).
  by destruct (collect_pure rest (found ++ [sub])).
Qed.

Lemma resolved_futures e subdomains :
  fst <$> filter (λ f, f.2 = Ok true) (futures_of e subdomains) =
  filter (λ sub, verdict e sub = Ok true) subdomains.
Proof.
  unfold futures_of. induction subdomains as [|sub rest IH]; [done|].
  rewrite fmap_cons. destruct (decide (verdict e sub = Ok true)) as [Hv|Hv].
  - rewrite !filter_cons_True by done. by rewrite fmap_cons, IH.
  - by rewrite !filter_cons_False by done.
Qed.

Lemma candidates_lookup domain lines i line :
  lines !! i = Some line →
  candidates domain lines !! i = Some (Str.strip line +:+ "." +:+ domain).
Proof. intros H. unfold candidates. by rewrite list_lookup_fmap, H. Qed.

Lemma brute_force_lookups e domain st content :
  fs st !! WORDLIST = Some content →
  lookups (brute_force_subdomains e domain st).1
  = lookups st ++ candidates domain (wordlist_lines content).
Proof. intros Hfile. by rewrite brute_force_run, Hfile. Qed.

(** C4: the brute force issues one lookup per line of the wordlist, for
    the stripped line joined to the domain by a dot, whatever the order in
    which the pool completes; what it returns is, up to that order, the
    list of the candidates the Resolver answered [True] for, and it does
    return when no lookup raises. *)
Theorem brute_force_checks_every_line e domain st content :
  fs st !! WORDLIST = Some content →
  let lines := wordlist_lines content in
  let run := brute_force_subdomains e domain st in
  lookups run.1 = lookups st ++ candidates domain lines ∧
  length (candidates domain lines) = length lines ∧
  (∀ i line, lines !! i = Some line →
     candidates domain lines !! i = Some (Str.strip line +:+ "." +:+ domain)) ∧
  (∀ found, run.2 = Ok found →
     found ≡ₚ filter (λ sub, verdict e sub = Ok true) (candidates domain lines)) ∧
  ((∀ sub, sub ∈ candidates domain lines → is_ok (verdict e sub) = true) →
     is_ok run.2 = true).
Proof.
  intros Hfile lines run. subst run. rewrite brute_force_run, Hfile. simpl.
  fold lines. split; [done|]. split; [apply length_fmap|].
  split; [apply candidates_lookup|]. split.
  - intros found Hfound. apply collect_pure_found in Hfound as ->. simpl.
    rewrite <- resolved_futures.
    by rewrite (as_completed_Permutation (completion e)).
  - intros Hall. apply collect_pure_total.
    rewrite (Forall_forall (λ f, is_ok f.2 = true)). intros f Hf.
    rewrite (as_completed_Permutation (completion e)) in Hf.
    unfold futures_of in Hf. apply list_elem_of_fmap in Hf as [sub [-> Hsub]].
    by apply Hall.
Qed.

Lemma brute_force_checks_every_line_witness :
  fs example_state !! WORDLIST = Some "www
mail

" ∧
  lookups (brute_force_subdomains not_found_env "example.com" example_state).1
    = ["www.example.com"; "mail.example.com"; ".example.com"] ∧
  (brute_force_subdomains not_found_env "example.com" example_state).2
    = Ok ["www.example.com"].
Proof.
  split; [reflexivity|].
  pose proof (brute_force_checks_every_line not_found_env "example.com"
                example_state _ eq_refl) as H.
  split; [exact (proj1 H)|reflexivity].
Defined.

(** ** Blank lines of the wordlist *)

Lemma lstrip_all_space s : Str.all_space s = true → Str.lstrip s = "".
Proof.
  induction s as [|c t IH]; simpl; [done|].
  intros [Hc Ht]%andb_true_iff. rewrite Hc. by apply IH.
Qed.

Lemma strip_all_space s : Str.all_space s = true → Str.strip s = "".
Proof. intros H. unfold Str.strip. by rewrite lstrip_all_space. Qed.

(** C10: a line of the wordlist made of whitespace only (a blank line is
    one) is not skipped; it gives the candidate [.domain], looked up at the
    position of the line like any other candidate. *)
Theorem blank_line_is_looked_up e domain st content i line :
  fs st !! WORDLIST = Some content →
  wordlist_lines content !! i = Some line →
  Str.all_space line = true →
  let subdomains := candidates domain (wordlist_lines content) in
  Str.strip line = "" ∧
  subdomains !! i = Some ("." +:+ domain) ∧
  lookups (brute_force_subdomains e domain st).1 = lookups st ++ subdomains ∧
  lookups (brute_force_subdomains e domain st).1 !! (length (lookups st) + i)%nat
    = Some ("." +:+ domain).
Proof.
  intros Hfile Hline Hblank subdomains.
  pose proof (strip_all_space _ Hblank) as Hstrip.
  assert (Hcand : subdomains !! i = Some ("." +:+ domain)).
  { unfold subdomains. rewrite (candidates_lookup _ _ _ _ Hline). by rewrite Hstrip. }
  pose proof (brute_force_lookups e domain st content Hfile) as Hlook.
  fold subdomains in Hlook.
  repeat split; try done.
  rewrite Hlook. by rewrite lookup_app_r, Nat.add_comm, Nat.add_sub by lia.
Qed.

Lemma blank_line_is_looked_up_witness :
  wordlist_lines "www
mail

" !! 2%nat = Some (String Str.LF "") ∧
  lookups (brute_force_subdomains not_found_env "example.com" example_state).1 !! 2%nat
    = Some ".example.com".
Proof.
  split; [reflexivity|].
  exact (proj2 (proj2 (proj2 (blank_line_is_looked_up not_found_env "example.com"
    example_state _ 2%nat (String Str.LF "") eq_refl eq_refl eq_refl)))).
Defined.

(** ** Strings and their order *)

Lemma app_nil_r_str (s : string) : s +:+ "" = s.
Proof. induction s as [|c t IH]; [done|]. unfold String.app in *; simpl. by rewrite IH. Qed.

Lemma app_assoc_str (s t u : string) : (s +:+ t) +:+ u = s +:+ (t +:+ u).
Proof.
  induction s as [|c s IH]; [done|]. unfold String.app in *; simpl. by rewrite IH.
Qed.

Global Instance atom_le_trans : Transitive atom_le.
Proof.
  intros [|x|s] [|y|t] [|z|u]; simpl; try done; [lia|].
  apply (transitivity (R := String.le)).
Qed.

Global Instance atom_le_antisym : AntiSymm (=) atom_le.
Proof.
  intros [|x|s] [|y|t]; simpl; try done.
  - intros ??. f_equal. lia.
  - intros H1 H2. f_equal. by apply (anti_symm String.le).
Qed.

Global Instance atom_le_total : Total atom_le.
Proof.
  intros [|x|s] [|y|t]; simpl; try tauto; [lia|].
  apply (total String.le).
Qed.

Lemma sorted_strings_Permutation hosts : sorted_strings hosts ≡ₚ elements hosts.
Proof. apply merge_sort_Permutation. Qed.

Lemma sorted_strings_elem_of hosts h : h ∈ sorted_strings hosts ↔ h ∈ hosts.
Proof. by rewrite sorted_strings_Permutation, elem_of_elements. Qed.

Lemma sorted_strings_NoDup hosts : NoDup (sorted_strings hosts).
Proof. rewrite sorted_strings_Permutation. apply NoDup_elements. Qed.

(** A sorted list without repetition ascends strictly. *)
Lemma StronglySorted_strict (l : list string) :
  StronglySorted String.le l → NoDup l → StronglySorted strict_lt l.
Proof.
  induction 1 as [|x l Hs IH Hall]; intros Hnd; [constructor|].
  apply NoDup_cons in Hnd as [Hx Hnd]. constructor; [by apply IH|].
  rewrite Forall_forall in Hall. apply Forall_forall. intros y Hy.
  split; [by apply Hall|]. by intros ->.
Qed.

Lemma sorted_strings_strict hosts : StronglySorted strict_lt (sorted_strings hosts).
Proof.
  apply StronglySorted_strict; [|apply sorted_strings_NoDup].
  apply StronglySorted_merge_sort; apply _.
Qed.

Lemma elements_set_map_AStr (hosts : gset string) :
  elements (set_map (D := gset atom) AStr hosts) ≡ₚ AStr <$> elements hosts.
Proof.
  apply NoDup_Permutation.
  - apply NoDup_elements.
  - apply (NoDup_fmap_2 _), NoDup_elements.
  - intros a. rewrite elem_of_elements, elem_of_map, list_elem_of_fmap.
    by setoid_rewrite elem_of_elements.
Qed.

Lemma sortable_strings (l : list string) : sortable (AStr <$> l) = true.
Proof.
  unfold sortable. assert (forallb is_str (AStr <$> l) = true) as ->.
  { by induction l. }
  by rewrite orb_true_r.
Qed.

Lemma sortable_Permutation l k : l ≡ₚ k → sortable l = sortable k.
Proof.
  intros Hp. unfold sortable. f_equal; [f_equal|].
  - by rewrite (Permutation_length Hp).
  - apply eq_true_iff_eq. rewrite !forallb_forall.
    by setoid_rewrite <- list_elem_of_In; setoid_rewrite Hp.
  - apply eq_true_iff_eq. rewrite !forallb_forall.
    by setoid_rewrite <- list_elem_of_In; setoid_rewrite Hp.
Qed.

(** Sorting a set of strings never fails, and gives the strings in
    ascending order. *)
Lemma py_sorted_strings (hosts : gset string) :
  py_sorted (set_map AStr hosts) = Ok (AStr <$> sorted_strings hosts).
Proof.
  unfold py_sorted.
  rewrite (sortable_Permutation _ _ (elements_set_map_AStr hosts)), sortable_strings.
  f_equal. apply (Sorted_unique atom_le).
  - apply Sorted_merge_sort, _.
  - apply (Sorted_fmap _ String.le); [done|]. apply Sorted_merge_sort, _.
  - rewrite merge_sort_Permutation, elements_set_map_AStr.
    unfold sorted_strings. by rewrite merge_sort_Permutation.
Qed.

(** ** The Writer *)

Lemma write_lines path (l : list string) st cur :
  fs st !! path = Some cur →
  for_each (AStr <$> l)
    (λ sub, data <- lift (add_newline sub) ;; write path data) st
  = (with_file st path (cur +:+ file_lines l), Ok ()).
Proof.
  revert st cur. induction l as [|h t IH]; intros st cur Hcur; simpl.
  - unfold ret, with_file. rewrite app_nil_r_str, insert_id by done. by destruct st.
  - unfold bind at 1. unfold bind at 1. unfold lift at 1, write at 1. simpl.
    rewrite Hcur. simpl.
    erewrite IH by (simpl; apply lookup_insert_eq).
    unfold with_file; simpl. by rewrite insert_insert_eq, !app_assoc_str.
Qed.

Lemma save_results_run e (hosts : gset string) output_file st :
  writable e output_file = true →
  save_results e (set_map AStr hosts) output_file st =
  (printing (with_file st output_file (file_lines (sorted_strings hosts)))
     [AStr (NL +:+ "[+] Results saved to " +:+ output_file)], Ok ()).
Proof.
  intros Hw. unfold save_results.
  erewrite bind_ok by (unfold open_w; by rewrite Hw).
  erewrite bind_ok by (unfold lift; by rewrite py_sorted_strings).
  erewrite bind_ok by (apply write_lines; simpl; apply lookup_insert_eq).
  unfold print, print_obj, with_file, printing; simpl.
  by rewrite insert_insert_eq.
Qed.

Lemma lines_keepends_line h rest :
  Str.mem Str.LF h = false →
  Str.lines_keepends (h +:+ NL +:+ rest) = (h +:+ NL) :: Str.lines_keepends rest.
Proof.
  induction h as [|c t IH]; intros Hmem; [done|].
  simpl in Hmem. apply orb_false_iff in Hmem as [Hc Ht].
  change (String c t +:+ NL +:+ rest) with (String c (t +:+ NL +:+ rest)).
  cbn [Str.lines_keepends]. by rewrite Hc, (IH Ht).
Qed.

Lemma lines_keepends_file_lines (l : list string) :
  Forall (λ h, Str.mem Str.LF h = false) l →
  Str.lines_keepends (file_lines l) = (λ h, h +:+ NL) <$> l.
Proof.
  induction 1 as [|h t Hh Ht IH]; [done|].
  cbn [file_lines foldr]. fold (file_lines t).
  by rewrite lines_keepends_line, IH.
Qed.

(** C5: when the path can be opened for writing, the Writer replaces the
    content of the file, whatever it was, by the hostnames of the set, each
    followed by a newline, in strictly ascending order, every hostname of
    the set once; when no hostname contains a newline, these are the lines
    of the file. *)
Theorem save_results_sorted_lines e (hosts : gset string) output_file st :
  writable e output_file = true →
  let run := save_results e (set_map AStr hosts) output_file st in
  let lines := sorted_strings hosts in
  run.2 = Ok () ∧
  fs run.1 = <[output_file := file_lines lines]> (fs st) ∧
  StronglySorted strict_lt lines ∧
  NoDup lines ∧
  (∀ h, h ∈ lines ↔ h ∈ hosts) ∧
  ((∀ h, h ∈ hosts → Str.mem Str.LF h = false) →
   Str.lines_keepends (file_lines lines) = (λ h, h +:+ NL) <$> lines).
Proof.
  intros Hw run lines. subst run. rewrite (save_results_run _ _ _ _ Hw).
  split; [done|]. split; [done|].
  split; [apply sorted_strings_strict|].
  split; [apply sorted_strings_NoDup|].
  split; [apply sorted_strings_elem_of|].
  intros Hnl. apply lines_keepends_file_lines, Forall_forall.
  intros h Hh. by apply Hnl, sorted_strings_elem_of.
Qed.

Lemma save_results_sorted_lines_witness :
  writable not_found_env "out.txt" = true ∧
  fs (save_results not_found_env
        (set_map AStr ({["b.example.com"; "a.example.com"]} : gset string))
        "out.txt" example_state).1 !! "out.txt"
  = Some "a.example.com
b.example.com
".
Proof.
  split; [reflexivity|].
  rewrite (proj1 (proj2 (save_results_sorted_lines not_found_env
    {["b.example.com"; "a.example.com"]} "out.txt" example_state eq_refl))).
  rewrite lookup_insert_eq. reflexivity.
Defined.

(** ** crt.sh *)

Lemma fetch_200 e url parse r :
  http_get e (Request url HEADERS 10) = Ok r → status_code r = 200 →
  fetch e url parse = parse r.
Proof. intros Hr Hs. unfold fetch. rewrite Hr. apply Z.eqb_eq in Hs. by rewrite Hs. Qed.

Lemma crtsh_step_entry entry v subdomains :
  crtsh_entry entry v →
  crtsh_step entry subdomains = Ok ({[AStr (crtsh_name v)]} ∪ subdomains).
Proof. intros (items & -> & Hv). unfold crtsh_step; simpl. by rewrite Hv. Qed.

Lemma add_each_crtsh entries names subdomains :
  Forall2 crtsh_entry entries names →
  add_each crtsh_step entries subdomains =
  (list_to_set (AStr ∘ crtsh_name <$> names) ∪ subdomains, Ok ()).
Proof.
  intros H. revert subdomains.
  induction H as [|entry v entries names Hv _ IH]; intros subdomains; simpl.
  - f_equal. set_eq_tauto.
  - rewrite (crtsh_step_entry _ _ _ Hv), IH. f_equal. set_eq_tauto.
Qed.

Lemma mem_replace_self c s : Str.mem c (Str.replace c "" s) = false.
Proof.
  induction s as [|a t IH]; [done|]. simpl.
  destruct (Ascii.eqb a c) eqn:Ha; [done|]. simpl. by rewrite Ha.
Qed.

Lemma mem_lstrip c s : Str.mem c s = false → Str.mem c (Str.lstrip s) = false.
Proof.
  induction s as [|a t IH]; [done|]. simpl.
  intros [Ha Ht]%orb_false_iff. destruct (Str.is_space a); [by apply IH|].
  simpl. by rewrite Ha, Ht.
Qed.

Lemma mem_rstrip c s : Str.mem c s = false → Str.mem c (Str.rstrip s) = false.
Proof.
  induction s as [|a t IH]; [done|]. simpl.
  intros [Ha Ht]%orb_false_iff. specialize (IH Ht).
  destruct (Str.rstrip t) as [|b r].
  - destruct (Str.is_space a); [done|]. simpl. by rewrite Ha.
  - simpl in *. by rewrite Ha, IH.
Qed.

Lemma rstrip_idemp s : Str.rstrip (Str.rstrip s) = Str.rstrip s.
Proof.
  induction s as [|a t IH]; [done|]. simpl.
  destruct (Str.rstrip t) as [|b r] eqn:Ht.
  - destruct (Str.is_space a) eqn:Ha; [done|]. simpl. by rewrite Ha.
  - cbn [Str.rstrip]. cbn [Str.rstrip] in IH. by rewrite IH.
Qed.

Lemma lstrip_starts_clean s : starts_clean (Str.lstrip s) = true.
Proof.
  induction s as [|a t IH]; [done|]. simpl.
  destruct (Str.is_space a) eqn:Ha; [done|]. simpl. by rewrite Ha.
Qed.

Lemma rstrip_starts_clean s : starts_clean s = true → starts_clean (Str.rstrip s) = true.
Proof.
  destruct s as [|a t]; [done|]. simpl. intros Ha.
  destruct (Str.rstrip t); [|done].
  destruct (Str.is_space a) eqn:E; simpl; [done|by rewrite E].
Qed.

Lemma starts_clean_lstrip s : starts_clean s = true → Str.lstrip s = s.
Proof.
  destruct s as [|a t]; [done|]. simpl. intros Ha.
  by destruct (Str.is_space a).
Qed.

(** What [strip] returns has no whitespace at either end. *)
Lemma strip_clean s :
  Str.lstrip (Str.strip s) = Str.strip s ∧ Str.rstrip (Str.strip s) = Str.strip s.
Proof.
  unfold Str.strip. split; [|apply rstrip_idemp].
  apply starts_clean_lstrip, rstrip_starts_clean, lstrip_starts_clean.
Qed.

Lemma crtsh_name_clean v :
  Str.mem Str.LF (crtsh_name v) = false ∧
  Str.lstrip (crtsh_name v) = crtsh_name v ∧
  Str.rstrip (crtsh_name v) = crtsh_name v.
Proof.
  split; [|apply strip_clean].
  unfold crtsh_name, Str.strip. apply mem_rstrip, mem_lstrip, mem_replace_self.
Qed.

(** C6: on a 200 response whose JSON is an array of entries with a string
    [name_value], the crt.sh adapter returns the set of these names, each
    with its newlines removed and the whitespace at its ends stripped. *)
Theorem crtsh_takes_stripped_names e domain st r entries names :
  http_get e (adapter_request CrtSh domain) = Ok r →
  status_code r = 200 →
  json_body r = Ok (JArr entries) →
  Forall2 crtsh_entry entries names →
  crtsh_enum e domain st = (st, Ok (list_to_set (AStr ∘ crtsh_name <$> names))) ∧
  Forall (λ v, crtsh_name v = Str.strip (Str.replace Str.LF "" v) ∧
               Str.mem Str.LF (crtsh_name v) = false ∧
               Str.lstrip (crtsh_name v) = crtsh_name v ∧
               Str.rstrip (crtsh_name v) = crtsh_name v) names.
Proof.
  intros Hr Hs Hj Hentries. split.
  - unfold crtsh_enum. rewrite except_request_run.
    rewrite (fetch_200 _ _ _ _ Hr Hs). unfold crtsh_parse. rewrite Hj. simpl.
    rewrite (add_each_crtsh _ _ _ Hentries). simpl. do 2 f_equal. set_eq_tauto.
  - apply Forall_forall. intros v _. split; [done|]. apply crtsh_name_clean.
Qed.

Lemma crtsh_takes_stripped_names_witness :
  crtsh_enum (example_env (λ _, Ok (Response 200 "" (Ok crtsh_example))))
    "example.com" example_state
  = (example_state, Ok {[AStr "a.example.com"]}).
Proof.
  assert (Hentry : Forall2 crtsh_entry
            [JObj [("name_value", JStr "a.example.com
")]] ["a.example.com
"]).
  { repeat constructor. by eexists. }
  rewrite (proj1 (crtsh_takes_stripped_names
    (example_env (λ _, Ok (Response 200 "" (Ok crtsh_example))))
    "example.com" example_state _ _ _ eq_refl eq_refl eq_refl Hentry)).
  reflexivity.
Defined.

(** ** urlscan.io *)

Lemma urlscan_step_entry entry d subdomains :
  urlscan_entry entry d →
  urlscan_step entry subdomains =
  Ok (list_to_set (AStr <$> kept_domains [d]) ∪ subdomains).
Proof.
  unfold kept_domains.
  destruct 1 as [items Hpage|items page Hpage Hdom|items page d Hpage Hdom];
    unfold urlscan_step; simpl; rewrite Hpage; simpl; rewrite ?Hdom; simpl.
  - f_equal. set_eq_tauto.
  - f_equal. set_eq_tauto.
  - destruct (String.eqb_spec d "") as [->|Hd]; simpl.
    + f_equal. set_eq_tauto.
    + rewrite filter_cons_True by done. simpl. f_equal. set_eq_tauto.
Qed.

Lemma kept_domains_cons d ds :
  kept_domains (d :: ds) = kept_domains [d] ++ kept_domains ds.
Proof.
  unfold kept_domains. destruct d as [d|]; simpl; [|done].
  destruct (decide (d ≠ "")).
  - by rewrite !filter_cons_True.
  - by rewrite !filter_cons_False.
Qed.

Lemma add_each_urlscan entries ds subdomains :
  Forall2 urlscan_entry entries ds →
  add_each urlscan_step entries subdomains =
  (list_to_set (AStr <$> kept_domains ds) ∪ subdomains, Ok ()).
Proof.
  intros H. revert subdomains.
  induction H as [|entry d entries ds Hd _ IH]; intros subdomains.
  - simpl. f_equal. set_eq_tauto.
  - cbn [add_each]. rewrite (urlscan_step_entry _ _ _ Hd), IH. f_equal.
    rewrite (kept_domains_cons d ds), fmap_app, list_to_set_app_L.
    apply set_eq; intros ?; rewrite !elem_of_union; tauto.
Qed.

(** C7: on a 200 response whose JSON is an object, the urlscan.io adapter
    returns the empty set when the key [results] is absent; when [results]
    is an array of entries, it returns the set of their [page.domain],
    entries without one contributing nothing (an empty domain counts as
    absent: the code tests the truth value of what it read). *)
Theorem urlscan_takes_page_domains e domain st r top :
  http_get e (adapter_request UrlScan domain) = Ok r →
  status_code r = 200 →
  json_body r = Ok (JObj top) →
  (Py.assoc "results" top = None → urlscan_enum e domain st = (st, Ok ∅)) ∧
  (∀ entries ds,
     Py.assoc "results" top = Some (JArr entries) →
     Forall2 urlscan_entry entries ds →
     urlscan_enum e domain st = (st, Ok (list_to_set (AStr <$> kept_domains ds)))).
Proof.
  intros Hr Hs Hj.
  assert (Hrun : urlscan_enum e domain st =
                 except_request (urlscan_parse r)
                   "[ERROR] Failed to fetch data from urlscan.io" st).
  { unfold urlscan_enum. by rewrite (fetch_200 _ _ _ _ Hr Hs). }
  rewrite Hrun, except_request_run. unfold urlscan_parse. rewrite Hj. simpl.
  split.
  - by intros ->.
  - intros entries ds -> Hentries. simpl.
    rewrite (add_each_urlscan _ _ _ Hentries). simpl. do 2 f_equal. set_eq_tauto.
Qed.

Lemma urlscan_takes_page_domains_witness :
  urlscan_enum (example_env (λ _, Ok (Response 200 "" (Ok urlscan_example))))
    "example.com" example_state
  = (example_state, Ok {[AStr "a.example.com"]}).
Proof.
  assert (Hentry : Forall2 urlscan_entry
            [JObj [("page", JObj [("domain", JStr "a.example.com")])]]
            [Some "a.example.com"]).
  { repeat constructor. by eapply urlscan_domain. }
  rewrite (proj2 (urlscan_takes_page_domains
    (example_env (λ _, Ok (Response 200 "" (Ok urlscan_example))))
    "example.com" example_state _ _ eq_refl eq_refl eq_refl) _ _ eq_refl Hentry).
  reflexivity.
Defined.

(** ** The Aggregator *)

Lemma brute_force_run_pure e domain st :
  brute_force_subdomains e domain st =
  (printing (looking_up st (brute e domain (fs st)).1) (brute e domain (fs st)).2.1,
   (brute e domain (fs st)).2.2).
Proof.
  rewrite brute_force_run. unfold brute.
  destruct (fs st !! WORDLIST) as [content|]; [done|].
  simpl. by rewrite looking_up_nil, printing_nil.
Qed.

Lemma for_each_print l st : for_each l print_obj st = (printing st l, Ok ()).
Proof.
  revert st. induction l as [|a l IH]; intros st; simpl.
  - by rewrite printing_nil.
  - erewrite bind_ok by reflexivity. rewrite IH.
    unfold printing; simpl. by rewrite <- app_assoc.
Qed.

(** The Aggregator, spelled out, when every phase returns and the union
    can be sorted. *)
Lemma enumerate_run e domain st found A B C D listing :
  (brute e domain (fs st)).2.2 = Ok found →
  contribution e CrtSh domain = Ok A →
  contribution e HackerTarget domain = Ok B →
  contribution e AlienVault domain = Ok C →
  contribution e UrlScan domain = Ok D →
  let all := ∅ ∪ list_to_set (AStr <$> found) ∪ A ∪ B ∪ C ∪ D in
  py_sorted all = Ok listing →
  enumerate_subdomains e domain st =
  (State (fs st)
     (printed st ++ narration e domain (fs st) all ++ listing)
     (lookups st ++ (brute e domain (fs st)).1),
   Ok all).
Proof.
  intros Hbf HA HB HC HD all Hsorted. unfold enumerate_subdomains.
  change (crtsh_enum e domain) with (adapter e CrtSh domain).
  change (hackertarget_enum e domain) with (adapter e HackerTarget domain).
  change (alienvault_enum e domain) with (adapter e AlienVault domain).
  change (urlscan_enum e domain) with (adapter e UrlScan domain).
  do 2 (erewrite bind_ok by apply print_run).
  erewrite bind_ok by (rewrite brute_force_run_pure; simpl; by rewrite Hbf).
  erewrite bind_ok by apply print_run.
  erewrite bind_ok by (rewrite adapter_run, HA; reflexivity).
  erewrite bind_ok by apply print_run.
  erewrite bind_ok by (rewrite adapter_run, HB; reflexivity).
  erewrite bind_ok by apply print_run.
  erewrite bind_ok by (rewrite adapter_run, HC; reflexivity).
  erewrite bind_ok by apply print_run.
  erewrite bind_ok by (rewrite adapter_run, HD; reflexivity).
  erewrite bind_ok by apply print_run.
  fold all.
  erewrite bind_ok by (unfold lift; rewrite Hsorted; reflexivity).
  erewrite bind_ok by apply for_each_print.
  rewrite !printing_looking_up, !printing_app.
  unfold ret, looking_up, printing, narration. cbn [fs printed lookups].
  do 2 f_equal. rewrite <- !app_assoc. reflexivity.
Qed.

Lemma list_to_set_AStr (found : list string) :
  list_to_set (AStr <$> found) =@{gset atom} set_map AStr (list_to_set found : gset string).
Proof.
  apply set_eq. intros a.
  rewrite elem_of_list_to_set, list_elem_of_fmap, elem_of_map.
  by setoid_rewrite elem_of_list_to_set.
Qed.

Lemma set_map_AStr_empty : set_map AStr (∅ : gset string) =@{gset atom} ∅.
Proof.
  apply set_eq. intros a. rewrite elem_of_map. split.
  - intros (h & _ & Hh). by apply elem_of_empty in Hh.
  - intros Ha. by apply elem_of_empty in Ha.
Qed.

Lemma union_AStr (found : list string) (SA SB SC SD : gset string) :
  ∅ ∪ list_to_set (AStr <$> found) ∪ set_map AStr SA ∪ set_map AStr SB
    ∪ set_map AStr SC ∪ set_map AStr SD
  =@{gset atom} set_map AStr (list_to_set found ∪ SA ∪ SB ∪ SC ∪ SD).
Proof.
  rewrite list_to_set_AStr, !set_map_union_L.
  by rewrite (left_id_L ∅ (∪)).
Qed.

(** A whole run in which every phase returns hostnames. *)
Lemma main_run e domain output st found (SA SB SC SD : gset string) :
  (brute_force_subdomains e domain st).2 = Ok found →
  contribution e CrtSh domain = Ok (set_map AStr SA) →
  contribution e HackerTarget domain = Ok (set_map AStr SB) →
  contribution e AlienVault domain = Ok (set_map AStr SC) →
  contribution e UrlScan domain = Ok (set_map AStr SD) →
  writable e output = true →
  let hosts := list_to_set found ∪ SA ∪ SB ∪ SC ∪ SD in
  (main e domain output st).2 = Ok () ∧
  fs (main e domain output st).1 = <[output := file_lines (sorted_strings hosts)]> (fs st).
Proof.
  intros Hbf HA HB HC HD Hw hosts.
  rewrite brute_force_run_pure in Hbf. simpl in Hbf.
  unfold main.
  erewrite bind_ok.
  2:{ eapply (enumerate_run _ _ _ _ _ _ _ _ _ Hbf HA HB HC HD).
      rewrite union_AStr. apply py_sorted_strings. }
  rewrite union_AStr. fold hosts. by rewrite (save_results_run _ _ _ _ Hw).
Qed.

Lemma non_200_contributes_nothing e p domain r :
  http_get e (adapter_request p domain) = Ok r → status_code r ≠ 200 →
  contribution e p domain = Ok ∅ ∧ adapter_out e p domain = [].
Proof.
  intros Hr Hs. unfold contribution, adapter_out.
  by rewrite (adapter_non_200 _ _ _ _ _ Hr Hs).
Qed.

(** C8: an adapter that receives a status other than 200 contributes the
    empty set and prints nothing; when the brute force and the other three
    adapters return hostnames and the output path is writable, the run
    goes through every phase and writes, sorted, what these found. *)
Theorem non_200_does_not_stop_the_run e domain output st p r found
    (S : provider → gset string) :
  http_get e (adapter_request p domain) = Ok r →
  status_code r ≠ 200 →
  (brute_force_subdomains e domain st).2 = Ok found →
  (∀ q, q ≠ p → contribution e q domain = Ok (set_map AStr (S q))) →
  writable e output = true →
  let hosts := list_to_set found ∪ ⋃ (S <$> filter (λ q, q ≠ p) providers) in
  contribution e p domain = Ok ∅ ∧
  adapter_out e p domain = [] ∧
  (main e domain output st).2 = Ok () ∧
  fs (main e domain output st).1 = <[output := file_lines (sorted_strings hosts)]> (fs st).
Proof.
  intros Hr Hs Hbf Hothers Hw hosts.
  destruct (non_200_contributes_nothing _ _ _ _ Hr Hs) as [Hp Hout].
  split; [done|]. split; [done|].
  set (S' q := if decide (q = p) then ∅ else S q).
  assert (Hall : ∀ q, contribution e q domain = Ok (set_map AStr (S' q))).
  { intros q. unfold S'. destruct (decide (q = p)) as [->|Hq].
    - by rewrite set_map_AStr_empty.
    - by apply Hothers. }
  assert (hosts = list_to_set found ∪ S' CrtSh ∪ S' HackerTarget ∪ S' AlienVault
                  ∪ S' UrlScan) as ->.
  { unfold hosts, S', providers. destruct p; simpl;
      apply set_eq; intros ?; rewrite ?elem_of_union, ?elem_of_empty; tauto. }
  by apply main_run.
Qed.

Lemma non_200_does_not_stop_the_run_witness :
  status_code (Response 404 "" (Raise RequestException)) ≠ 200 ∧
  contribution mixed_env CrtSh "example.com" = Ok ∅ ∧
  (main mixed_env "example.com" "out.txt" example_state).2 = Ok () ∧
  fs (main mixed_env "example.com" "out.txt" example_state).1 !! "out.txt"
    = Some "www.example.com
".
Proof.
  assert (Hs : status_code (Response 404 "" (Raise RequestException)) ≠ 200) by done.
  assert (Hothers : ∀ q, q ≠ CrtSh →
            contribution mixed_env q "example.com" = Ok (set_map AStr (mixed_found q))).
  { intros [] Hq; [done|reflexivity..]. }
  destruct (non_200_does_not_stop_the_run mixed_env "example.com" "out.txt"
              example_state CrtSh _ ["www.example.com"] mixed_found
              eq_refl Hs eq_refl Hothers eq_refl) as (Hp & _ & Hok & Hfs).
  split; [exact Hs|]. split; [exact Hp|]. split; [exact Hok|].
  rewrite Hfs, lookup_insert_eq. reflexivity.
Defined.

(** C9: when every phase returns and the union can be sorted, the
    Aggregator returns the union of the five contributions; it holds every
    hostname of any of them once, however much they overlap, and so does
    the sorted listing it prints. *)
Theorem final_set_has_no_duplicates e domain st found A B C D :
  (brute_force_subdomains e domain st).2 = Ok found →
  contribution e CrtSh domain = Ok A →
  contribution e HackerTarget domain = Ok B →
  contribution e AlienVault domain = Ok C →
  contribution e UrlScan domain = Ok D →
  let all := list_to_set (AStr <$> found) ∪ A ∪ B ∪ C ∪ D in
  sortable (elements all) = true →
  (enumerate_subdomains e domain st).2 = Ok all ∧
  NoDup (elements all) ∧
  (∀ a, a ∈ elements all ↔ a ∈ AStr <$> found ∨ a ∈ A ∨ a ∈ B ∨ a ∈ C ∨ a ∈ D) ∧
  ∃ listing before,
    py_sorted all = Ok listing ∧ NoDup listing ∧ listing ≡ₚ elements all ∧
    printed (enumerate_subdomains e domain st).1 = before ++ listing.
Proof.
  intros Hbf HA HB HC HD all Hsortable.
  rewrite brute_force_run_pure in Hbf. simpl in Hbf.
  assert (Hall : ∅ ∪ list_to_set (AStr <$> found) ∪ A ∪ B ∪ C ∪ D = all).
  { unfold all. by rewrite (left_id_L ∅ (∪)). }
  assert (Hsorted : py_sorted all = Ok (merge_sort atom_le (elements all))).
  { unfold py_sorted. by rewrite Hsortable. }
  pose proof (enumerate_run e domain st found A B C D
                (merge_sort atom_le (elements all)) Hbf HA HB HC HD) as Hrun.
  cbv zeta in Hrun. rewrite Hall in Hrun. specialize (Hrun Hsorted).
  rewrite Hrun. cbn [fst snd printed].
  split; [done|]. split; [apply NoDup_elements|]. split.
  - intros a. unfold all.
    rewrite elem_of_elements, !elem_of_union, elem_of_list_to_set. tauto.
  - exists (merge_sort atom_le (elements all)),
           (printed st ++ narration e domain (fs st) all).
    split; [done|]. split; [|split].
    + rewrite merge_sort_Permutation. apply NoDup_elements.
    + apply merge_sort_Permutation.
    + by rewrite app_assoc.
Qed.

Lemma final_set_has_no_duplicates_witness :
  (brute_force_subdomains mixed_env "example.com" example_state).2
    = Ok ["www.example.com"] ∧
  contribution mixed_env HackerTarget "example.com" = Ok {[AStr "www.example.com"]} ∧
  (enumerate_subdomains mixed_env "example.com" example_state).2
    = Ok {[AStr "www.example.com"]}.
Proof.
  split; [reflexivity|]. split; [reflexivity|].
  assert (Hsortable : sortable (elements (list_to_set (AStr <$> ["www.example.com"])
            ∪ ∅ ∪ {[AStr "www.example.com"]} ∪ ∅ ∪ ∅ : gset atom)) = true)
    by (vm_compute; reflexivity).
  destruct (final_set_has_no_duplicates mixed_env "example.com" example_state
              ["www.example.com"] ∅ {[AStr "www.example.com"]} ∅ ∅
              eq_refl eq_refl eq_refl eq_refl eq_refl Hsortable) as [Hrun _].
  rewrite Hrun. reflexivity.
Defined.

(** * Further properties *)

(** ** Adapters: what they depend on and what they leave alone *)

Lemma add_each_app step l1 l2 subdomains :
  add_each step (l1 ++ l2) subdomains =
  match add_each step l1 subdomains with
  | (subdomains', Ok _) => add_each step l2 subdomains'
  | failed => failed
  end.
Proof.
  revert subdomains. induction l1 as [|entry l1 IH]; intros subdomains; simpl; [done|].
  destruct (step entry subdomains); [apply IH|done].
Qed.

Lemma add_each_exn step entries subdomains ex :
  (∀ entry acc ex', step entry acc = Raise ex' → is_RequestException ex' = false) →
  (add_each step entries subdomains).2 = Raise ex →
  is_RequestException ex = false.
Proof.
  intros Hstep. revert subdomains.
  induction entries as [|entry entries IH]; intros subdomains; simpl; [done|].
  destruct (step entry subdomains) as [acc|ex'] eqn:Hs; [apply IH|].
  simpl. intros [= <-]. by eapply Hstep.
Qed.

Lemma getitem_exn v key ex :
  Py.getitem v key = Raise ex → is_RequestException ex = false.
Proof.
  destruct v as [| | | | |items]; simpl; try by intros [= <-].
  destruct (Py.assoc key items); [done|]. by intros [= <-].
Qed.

Lemma get_exn v key default ex :
  Py.get v key default = Raise ex → is_RequestException ex = false.
Proof. destruct v; simpl; try done; by intros [= <-]. Qed.

Lemma iter_exn v ex : Py.iter v = Raise ex → is_RequestException ex = false.
Proof. destruct v; simpl; try done; by intros [= <-]. Qed.

Lemma hashable_exn v ex : Py.hashable v = Raise ex → is_RequestException ex = false.
Proof. destruct v; simpl; try done; by intros [= <-]. Qed.

Lemma crtsh_step_exn entry acc ex :
  crtsh_step entry acc = Raise ex → is_RequestException ex = false.
Proof.
  unfold crtsh_step.
  destruct (Py.getitem entry "name_value") as [v|ex'] eqn:Hv.
  - destruct v; simpl; try done; by intros [= <-].
  - intros [= <-]. by eapply getitem_exn.
Qed.

Lemma alienvault_step_exn entry acc ex :
  alienvault_step entry acc = Raise ex → is_RequestException ex = false.
Proof.
  unfold alienvault_step.
  destruct (Py.getitem entry "hostname") as [v|ex'] eqn:Hv.
  - destruct (Py.hashable v) as [a|ex'] eqn:Ha; [done|].
    intros [= <-]. by eapply hashable_exn.
  - intros [= <-]. by eapply getitem_exn.
Qed.

Lemma urlscan_step_exn entry acc ex :
  urlscan_step entry acc = Raise ex → is_RequestException ex = false.
Proof.
  unfold urlscan_step.
  destruct (Py.get entry "page" (JObj [])) as [page|ex'] eqn:Hp.
  - destruct (Py.get page "domain" (JStr "")) as [d|ex'] eqn:Hd.
    + destruct (Py.truthy d); [|done].
      destruct (Py.hashable d) as [a|ex'] eqn:Ha; [done|].
      intros [= <-]. by eapply hashable_exn.
    + intros [= <-]. by eapply get_exn.
  - intros [= <-]. by eapply get_exn.
Qed.

(** A parser that leaves with a [RequestException] has added nothing. *)
Lemma parser_request_exception p r ex :
  (parser p r).2 = Raise ex → is_RequestException ex = true → (parser p r).1 = ∅.
Proof.
  destruct p; simpl.
  - unfold crtsh_parse. destruct (json_body r) as [j|ex1]; [|done].
    destruct (Py.iter j) as [entries|ex2] eqn:Hi; [|done].
    intros Hex Hreq. apply add_each_exn in Hex; [congruence|apply crtsh_step_exn].
  - done.
  - unfold alienvault_parse. destruct (json_body r) as [j|ex1]; [|done].
    destruct (Py.get j "passive_dns" (JArr [])) as [v|ex2]; [|done].
    destruct (Py.iter v) as [entries|ex3]; [|done].
    intros Hex Hreq. apply add_each_exn in Hex; [congruence|apply alienvault_step_exn].
  - unfold urlscan_parse. destruct (json_body r) as [j|ex1]; [|done].
    destruct (Py.get j "results" (JArr [])) as [v|ex2]; [|done].
    destruct (Py.iter v) as [entries|ex3]; [|done].
    intros Hex Hreq. apply add_each_exn in Hex; [congruence|apply urlscan_step_exn].
Qed.

Lemma fetch_request_exception e url p ex :
  (fetch e url (parser p)).2 = Raise ex → is_RequestException ex = true →
  (fetch e url (parser p)).1 = ∅.
Proof.
  unfold fetch. destruct (http_get e (Request url HEADERS 10)) as [r|ex1]; [|done].
  destruct (status_code r =? 200); [|done]. apply parser_request_exception.
Qed.

(** X1: an adapter never changes a file and never issues a DNS lookup; it
    prints nothing, or else exactly its own error message, and in that
    case it returns the empty set: a fetch that failed leaves no partial
    result. *)
Theorem adapter_frame e p domain st :
  fs (adapter e p domain st).1 = fs st ∧
  lookups (adapter e p domain st).1 = lookups st ∧
  (printed (adapter e p domain st).1 = printed st ∨
   printed (adapter e p domain st).1 = printed st ++ [AStr (adapter_msg p)] ∧
   (adapter e p domain st).2 = Ok ∅).
Proof.
  rewrite adapter_unfold, except_request_run.
  pose proof (fetch_request_exception e (adapter_url p domain) p) as Hempty.
  destruct (fetch e (adapter_url p domain) (parser p)) as [s [u|ex]]; simpl in *.
  - auto.
  - destruct (is_RequestException ex) eqn:Hex; simpl; [|auto].
    split; [done|]. split; [done|]. right. split; [done|].
    by rewrite (Hempty ex).
Qed.

(** X2: what an adapter does depends on the environment through the
    answer to its own request only: two environments that answer this
    request alike give the same run of the adapter. *)
Theorem adapter_isolated e e' p domain st :
  http_get e (adapter_request p domain) = http_get e' (adapter_request p domain) →
  adapter e p domain st = adapter e' p domain st.
Proof.
  intros H. rewrite !adapter_unfold. unfold fetch.
  fold (adapter_request p domain). by rewrite H.
Qed.

Lemma adapter_isolated_witness :
  adapter mixed_env CrtSh "example.com" example_state
  = adapter not_found_env CrtSh "example.com" example_state.
Proof. exact (adapter_isolated mixed_env not_found_env CrtSh "example.com" example_state eq_refl). Defined.

(** ** AlienVault OTX *)

Lemma alienvault_step_entry entry h subdomains :
  alienvault_entry entry h →
  alienvault_step entry subdomains = Ok ({[AStr h]} ∪ subdomains).
Proof. intros (items & -> & Hh). unfold alienvault_step; simpl. by rewrite Hh. Qed.

Lemma add_each_alienvault entries hs subdomains :
  Forall2 alienvault_entry entries hs →
  add_each alienvault_step entries subdomains =
  (list_to_set (AStr <$> hs) ∪ subdomains, Ok ()).
Proof.
  intros H. revert subdomains.
  induction H as [|entry h entries hs Hh _ IH]; intros subdomains; simpl.
  - f_equal. set_eq_tauto.
  - rewrite (alienvault_step_entry _ _ _ Hh), IH. f_equal. set_eq_tauto.
Qed.

Lemma alienvault_200 e domain st r :
  http_get e (adapter_request AlienVault domain) = Ok r →
  status_code r = 200 →
  alienvault_enum e domain st =
  except_request (alienvault_parse r) "[ERROR] Failed to fetch data from AlienVault" st.
Proof. intros Hr Hs. unfold alienvault_enum. by rewrite (fetch_200 _ _ _ _ Hr Hs). Qed.

(** X3: on a 200 response whose JSON is an object, the AlienVault adapter
    returns the empty set when the key [passive_dns] is absent, and the set
    of the [hostname] strings of the entries when it is an array; the
    hostnames are taken as they are, without stripping. *)
Theorem alienvault_takes_hostnames e domain st r top :
  http_get e (adapter_request AlienVault domain) = Ok r →
  status_code r = 200 →
  json_body r = Ok (JObj top) →
  (Py.assoc "passive_dns" top = None → alienvault_enum e domain st = (st, Ok ∅)) ∧
  (∀ entries hs,
     Py.assoc "passive_dns" top = Some (JArr entries) →
     Forall2 alienvault_entry entries hs →
     alienvault_enum e domain st = (st, Ok (list_to_set (AStr <$> hs)))).
Proof.
  intros Hr Hs Hj. rewrite (alienvault_200 _ _ _ _ Hr Hs), except_request_run.
  unfold alienvault_parse. rewrite Hj. simpl. split.
  - by intros ->.
  - intros entries hs -> Hentries. simpl.
    rewrite (add_each_alienvault _ _ _ Hentries). simpl. do 2 f_equal. set_eq_tauto.
Qed.

Lemma alienvault_takes_hostnames_witness :
  alienvault_enum
    (example_env (λ _, Ok (Response 200 "" (Ok (JObj [("passive_dns",
       JArr [JObj [("hostname", JStr " a.example.com")]])])))))
    "example.com" example_state
  = (example_state, Ok {[AStr " a.example.com"]}).
Proof.
  assert (Hentry : Forall2 alienvault_entry
            [JObj [("hostname", JStr " a.example.com")]] [" a.example.com"]).
  { repeat constructor. by eexists. }
  rewrite (proj2 (alienvault_takes_hostnames
    (example_env (λ _, Ok (Response 200 "" (Ok (JObj [("passive_dns",
       JArr [JObj [("hostname", JStr " a.example.com")]])])))))
    "example.com" example_state _ _ eq_refl eq_refl eq_refl) _ _ eq_refl Hentry).
  reflexivity.
Defined.

(** X4: an AlienVault entry that is an object without [hostname] makes
    the adapter raise [KeyError], whatever well-formed entries come before
    it and whatever comes after; nothing is printed and the hostnames
    already read are lost. *)
Theorem alienvault_missing_hostname_raises e domain st r top good hs items rest :
  http_get e (adapter_request AlienVault domain) = Ok r →
  status_code r = 200 →
  json_body r = Ok (JObj top) →
  Py.assoc "passive_dns" top = Some (JArr (good ++ JObj items :: rest)) →
  Forall2 alienvault_entry good hs →
  Py.assoc "hostname" items = None →
  alienvault_enum e domain st = (st, Raise (KeyError "hostname")).
Proof.
  intros Hr Hs Hj Hkey Hgood Hmissing.
  rewrite (alienvault_200 _ _ _ _ Hr Hs), except_request_run.
  unfold alienvault_parse. rewrite Hj. simpl. rewrite Hkey. simpl.
  rewrite add_each_app, (add_each_alienvault _ _ _ Hgood). simpl.
  unfold alienvault_step. simpl. by rewrite Hmissing.
Qed.

Lemma alienvault_missing_hostname_raises_witness :
  alienvault_enum
    (example_env (λ _, Ok (Response 200 "" (Ok (JObj [("passive_dns",
       JArr [JObj [("hostname", JStr "a.example.com")]; JObj [("address", JStr "1.2.3.4")]])])))))
    "example.com" example_state
  = (example_state, Raise (KeyError "hostname")).
Proof.
  assert (Hgood : Forall2 alienvault_entry
            [JObj [("hostname", JStr "a.example.com")]] ["a.example.com"]).
  { repeat constructor. by eexists. }
  exact (alienvault_missing_hostname_raises
    (example_env (λ _, Ok (Response 200 "" (Ok (JObj [("passive_dns",
       JArr [JObj [("hostname", JStr "a.example.com")]; JObj [("address", JStr "1.2.3.4")]])])))))
    "example.com" example_state _ _ [JObj [("hostname", JStr "a.example.com")]]
    ["a.example.com"] [("address", JStr "1.2.3.4")] []
    eq_refl eq_refl eq_refl eq_refl Hgood eq_refl).
Defined.

(** ** crt.sh and urlscan.io: entries of the wrong shape *)

(** X5: a crt.sh entry that is an object without [name_value] makes the
    adapter raise [KeyError], whatever well-formed entries come before it
    and whatever comes after; nothing is printed and the names already
    read are lost. *)
Theorem crtsh_missing_name_value_raises e domain st r good names items rest :
  http_get e (adapter_request CrtSh domain) = Ok r →
  status_code r = 200 →
  json_body r = Ok (JArr (good ++ JObj items :: rest)) →
  Forall2 crtsh_entry good names →
  Py.assoc "name_value" items = None →
  crtsh_enum e domain st = (st, Raise (KeyError "name_value")).
Proof.
  intros Hr Hs Hj Hgood Hmissing.
  unfold crtsh_enum. rewrite except_request_run, (fetch_200 _ _ _ _ Hr Hs).
  unfold crtsh_parse. rewrite Hj. simpl.
  rewrite add_each_app, (add_each_crtsh _ _ _ Hgood). simpl.
  unfold crtsh_step. simpl. by rewrite Hmissing.
Qed.

Lemma crtsh_missing_name_value_raises_witness :
  crtsh_enum
    (example_env (λ _, Ok (Response 200 "" (Ok (JArr
       [JObj [("name_value", JStr "a.example.com")]; JObj [("id", JInt 7)]])))))
    "example.com" example_state
  = (example_state, Raise (KeyError "name_value")).
Proof.
  assert (Hgood : Forall2 crtsh_entry
            [JObj [("name_value", JStr "a.example.com")]] ["a.example.com"]).
  { repeat constructor. by eexists. }
  exact (crtsh_missing_name_value_raises
    (example_env (λ _, Ok (Response 200 "" (Ok (JArr
       [JObj [("name_value", JStr "a.example.com")]; JObj [("id", JInt 7)]])))))
    "example.com" example_state _ [JObj [("name_value", JStr "a.example.com")]]
    ["a.example.com"] [("id", JInt 7)] []
    eq_refl eq_refl eq_refl Hgood eq_refl).
Defined.

(** X6: the urlscan.io adapter tolerates an absent [page], not a [page]
    that is present without being an object (a JSON null, say): such an
    entry makes it raise [AttributeError], whatever well-formed entries
    come before it. *)
Theorem urlscan_page_not_object_raises e domain st r top good ds items page rest :
  http_get e (adapter_request UrlScan domain) = Ok r →
  status_code r = 200 →
  json_body r = Ok (JObj top) →
  Py.assoc "results" top = Some (JArr (good ++ JObj items :: rest)) →
  Forall2 urlscan_entry good ds →
  Py.assoc "page" items = Some page →
  is_object page = false →
  urlscan_enum e domain st = (st, Raise AttributeError).
Proof.
  intros Hr Hs Hj Hkey Hgood Hpage Hobj.
  unfold urlscan_enum. rewrite except_request_run, (fetch_200 _ _ _ _ Hr Hs).
  unfold urlscan_parse. rewrite Hj. simpl. rewrite Hkey. simpl.
  rewrite add_each_app, (add_each_urlscan _ _ _ Hgood). simpl.
  unfold urlscan_step. simpl. rewrite Hpage. simpl.
  by destruct page.
Qed.

Lemma urlscan_page_not_object_raises_witness :
  urlscan_enum
    (example_env (λ _, Ok (Response 200 "" (Ok (JObj [("results",
       JArr [JObj [("page", JNull)]])])))))
    "example.com" example_state
  = (example_state, Raise AttributeError).
Proof.
  exact (urlscan_page_not_object_raises
    (example_env (λ _, Ok (Response 200 "" (Ok (JObj [("results",
       JArr [JObj [("page", JNull)]])])))))
    "example.com" example_state _ _ [] [] [("page", JNull)] JNull []
    eq_refl eq_refl eq_refl eq_refl (List.Forall2_nil urlscan_entry) eq_refl eq_refl).
Defined.

(** ** HackerTarget: every body *)

Lemma split_comma_head s : ∃ rest, Str.split Str.COMMA s = first_field s :: rest.
Proof.
  induction s as [|c t [rest IH]]; simpl; [by exists []|].
  destruct (Ascii.eqb c Str.COMMA); [by eexists|].
  rewrite IH. by eexists.
Qed.

Lemma hackertarget_line_first_field subdomains line :
  hackertarget_line subdomains line = {[AStr (first_field line)]} ∪ subdomains.
Proof.
  unfold hackertarget_line. by destruct (split_comma_head line) as [rest ->].
Qed.

Lemma hackertarget_lines_first_fields l subdomains :
  foldl hackertarget_line subdomains l =
  list_to_set (AStr <$> (first_field <$> l)) ∪ subdomains.
Proof.
  revert subdomains. induction l as [|line l IH]; intros subdomains; simpl.
  - set_eq_tauto.
  - rewrite IH, hackertarget_line_first_field. set_eq_tauto.
Qed.

Lemma split_fields_no_separator sep s :
  Forall (λ x, Str.mem sep x = false) (Str.split sep s).
Proof.
  induction s as [|c t IH]; simpl; [by repeat constructor|].
  destruct (Ascii.eqb c sep) eqn:Hc; [by constructor|].
  destruct (Str.split sep t) as [|h r]; [by repeat constructor; simpl; rewrite Hc|].
  apply Forall_cons in IH as [Hh Hr]. constructor; [|done].
  simpl. by rewrite Hc, Hh.
Qed.

Lemma first_field_no_comma s : Str.mem Str.COMMA (first_field s) = false.
Proof.
  induction s as [|c t IH]; simpl; [done|].
  destruct (Ascii.eqb c Str.COMMA) eqn:Hc; [done|]. simpl. by rewrite Hc, IH.
Qed.

Lemma first_field_mem c s : Str.mem c s = false → Str.mem c (first_field s) = false.
Proof.
  induction s as [|a t IH]; simpl; [done|].
  intros [Ha Ht]%orb_false_iff.
  destruct (Ascii.eqb a Str.COMMA); [done|]. simpl. by rewrite Ha, IH.
Qed.

(** X7: on a 200 response the HackerTarget adapter never raises, whatever
    the body: it returns the first comma-separated field of every line of
    the body.  There is always at least one line, so the set is never
    empty (an empty body gives the empty string as only hostname), and no
    hostname contains a comma or a newline. *)
Theorem hackertarget_takes_first_fields e domain st r :
  http_get e (adapter_request HackerTarget domain) = Ok r →
  status_code r = 200 →
  let hosts := first_field <$> Str.split Str.LF (text r) in
  hackertarget_enum e domain st = (st, Ok (list_to_set (AStr <$> hosts))) ∧
  hosts ≠ [] ∧
  Forall (λ h, Str.mem Str.COMMA h = false ∧ Str.mem Str.LF h = false) hosts.
Proof.
  intros Hr Hs hosts. split; [|split].
  - unfold hackertarget_enum. rewrite except_request_run, (fetch_200 _ _ _ _ Hr Hs).
    unfold hackertarget_parse. simpl.
    rewrite hackertarget_lines_first_fields. fold hosts. do 2 f_equal. set_eq_tauto.
  - unfold hosts. pose proof (split_nonempty Str.LF (text r)).
    by destruct (Str.split Str.LF (text r)).
  - unfold hosts. apply Forall_fmap.
    eapply Forall_impl; [apply (split_fields_no_separator Str.LF)|].
    intros line Hline. simpl. split; [apply first_field_no_comma|].
    by apply first_field_mem.
Qed.

Lemma hackertarget_takes_first_fields_witness :
  hackertarget_enum (example_env (λ _, Ok (Response 200 "" (Raise RequestException))))
    "example.com" example_state
  = (example_state, Ok {[AStr ""]}).
Proof.
  rewrite (proj1 (hackertarget_takes_first_fields
    (example_env (λ _, Ok (Response 200 "" (Raise RequestException))))
    "example.com" example_state _ eq_refl eq_refl)).
  reflexivity.
Defined.

(** ** crt.sh: names separated by a newline *)

Lemma replace_app c new u v :
  Str.replace c new (u +:+ v) = Str.replace c new u +:+ Str.replace c new v.
Proof.
  induction u as [|a u IH]; [done|].
  change (String a u +:+ v) with (String a (u +:+ v)). simpl.
  destruct (Ascii.eqb a c).
  - by rewrite IH, app_assoc_str.
  - rewrite IH. done.
Qed.

(** X8: crt.sh lists several names in one [name_value], one per line.
    The adapter removes the newline without splitting at it: an entry
    whose value is [u], a newline and [v] contributes one hostname, what
    the value [u] followed by [v] would contribute. *)
Theorem crtsh_glues_names entry u v subdomains :
  crtsh_entry entry (u +:+ String Str.LF v) →
  crtsh_step entry subdomains = Ok ({[AStr (crtsh_name (u +:+ v))]} ∪ subdomains).
Proof.
  intros Hentry. rewrite (crtsh_step_entry _ _ _ Hentry). do 3 f_equal.
  unfold crtsh_name. f_equal.
  rewrite !replace_app; f_equal; simpl; by rewrite ?Ascii.eqb_refl.
Qed.

Lemma crtsh_glues_names_witness :
  crtsh_step (JObj [("name_value", JStr "a.example.com
b.example.com")]) ∅
  = Ok ({[AStr "a.example.comb.example.com"]} ∪ ∅).
Proof.
  assert (Hentry : crtsh_entry (JObj [("name_value", JStr "a.example.com
b.example.com")]) ("a.example.com" +:+ String Str.LF "b.example.com")).
  { by eexists. }
  exact (crtsh_glues_names _ "a.example.com" "b.example.com" ∅ Hentry).
Defined.

(** ** The brute force: exceptions and announcements *)

Lemma collect_pure_raises futures found sub ex :
  (sub, Raise ex) ∈ futures →
  ∃ sub' ex', (sub', Raise ex') ∈ futures ∧
              (collect_pure futures found).2 = Raise ex'.
Proof.
  revert found. induction futures as [|[s [[]|e1]] rest IH]; intros found Hin.
  - by apply elem_of_nil in Hin.
  - apply elem_of_cons in Hin as [[=]|Hin].
    destruct (IH (found ++ [s]) Hin) as (sub' & ex' & Hin' & Hres).
    exists sub', ex'. split; [by right|]. cbn [collect_pure].
    by destruct (collect_pure rest (found ++ [s])).
  - apply elem_of_cons in Hin as [[=]|Hin].
    destruct (IH found Hin) as (sub' & ex' & Hin' & Hres).
    exists sub', ex'. split; [by right|done].
  - exists s, e1. split; [left|done].
Qed.

Lemma collect_pure_out futures found res :
  (collect_pure futures found).2 = Ok res →
  ∃ new, res = found ++ new ∧ (collect_pure futures found).1 = found_line <$> new.
Proof.
  revert found. induction futures as [|[s [[]|e1]] rest IH]; intros found;
    cbn [collect_pure].
  - intros [= <-]. exists []. by rewrite app_nil_r.
  - specialize (IH (found ++ [s])).
    destruct (collect_pure rest (found ++ [s])) as [out r]. simpl in *.
    intros Hr. destruct (IH Hr) as (new & -> & ->).
    exists (s :: new). by rewrite <- app_assoc.
  - apply IH.
  - done.
Qed.

(** X9: when the lookup of some candidate raises an exception that the
    Resolver does not catch, the brute force does not return: it raises
    the exception of one of the failed lookups, and every candidate has
    been looked up all the same. *)
Theorem brute_force_uncaught_exception e domain st content sub ex :
  fs st !! WORDLIST = Some content →
  sub ∈ candidates domain (wordlist_lines content) →
  verdict e sub = Raise ex →
  ∃ sub' ex',
    sub' ∈ candidates domain (wordlist_lines content) ∧
    verdict e sub' = Raise ex' ∧
    (brute_force_subdomains e domain st).2 = Raise ex' ∧
    lookups (brute_force_subdomains e domain st).1
      = lookups st ++ candidates domain (wordlist_lines content).
Proof.
  intros Hfile Hsub Hex. rewrite brute_force_run, Hfile. simpl.
  set (subdomains := candidates domain (wordlist_lines content)) in *.
  assert (Hin : (sub, Raise ex) ∈ as_completed (completion e) (futures_of e subdomains)).
  { rewrite as_completed_Permutation. unfold futures_of.
    apply list_elem_of_fmap. exists sub. by rewrite Hex. }
  destruct (collect_pure_raises _ [] _ _ Hin) as (sub' & ex' & Hin' & Hres).
  exists sub', ex'. rewrite as_completed_Permutation in Hin'.
  unfold futures_of in Hin'. apply list_elem_of_fmap in Hin' as (s & [= -> Hv] & Hs).
  by rewrite Hv.
Qed.

Lemma brute_force_uncaught_exception_witness :
  ∃ sub' ex',
    sub' ∈ candidates "example.com" (wordlist_lines "www
mail

") ∧
    verdict servfail_env sub' = Raise ex' ∧
    (brute_force_subdomains servfail_env "example.com" example_state).2 = Raise ex' ∧
    lookups (brute_force_subdomains servfail_env "example.com" example_state).1
      = [] ++ candidates "example.com" (wordlist_lines "www
mail

").
Proof.
  assert (Hsub : "www.example.com" ∈ candidates "example.com" (wordlist_lines "www
mail

")) by (vm_compute; left).
  exact (brute_force_uncaught_exception servfail_env "example.com" example_state
           _ "www.example.com" NoNameservers eq_refl Hsub eq_refl).
Defined.

(** X10: when the brute force returns, it has printed one line per
    subdomain of the list it returns, in the order of that list, and
    nothing else. *)
Theorem brute_force_announces_found e domain st found :
  (brute_force_subdomains e domain st).2 = Ok found →
  printed (brute_force_subdomains e domain st).1
    = printed st ++ (found_line <$> found).
Proof.
  rewrite brute_force_run.
  destruct (fs st !! WORDLIST) as [content|]; [|done].
  cbn [fst snd]. intros Hfound.
  destruct (collect_pure_out _ _ _ Hfound) as (new & -> & ->). done.
Qed.

Lemma brute_force_announces_found_witness :
  printed (brute_force_subdomains not_found_env "example.com" example_state).1
    = [] ++ (found_line <$> ["www.example.com"]).
Proof.
  exact (brute_force_announces_found not_found_env "example.com" example_state
           ["www.example.com"] eq_refl).
Defined.

(** X11: without the wordlist file the brute force raises [OSError]
    before any lookup, and so does the whole run, after its first two
    lines of narration: no request is made and no file is written. *)
Theorem missing_wordlist_aborts e domain output st :
  fs st !! WORDLIST = None →
  brute_force_subdomains e domain st = (st, Raise OSError) ∧
  main e domain output st =
    (printing st [AStr (NL +:+ "[+] Starting subdomain enumeration..." +:+ NL);
                  AStr "[*] Running brute-force subdomain enumeration..."],
     Raise OSError).
Proof.
  intros Hfile. split; [by rewrite brute_force_run, Hfile|].
  unfold main. erewrite bind_raise; [done|].
  unfold enumerate_subdomains.
  do 2 (erewrite bind_ok by apply print_run).
  erewrite bind_raise by (rewrite brute_force_run; simpl; by rewrite Hfile).
  by rewrite printing_app.
Qed.

Lemma missing_wordlist_aborts_witness :
  (main not_found_env "example.com" "out.txt" initial).2 = Raise OSError ∧
  fs (main not_found_env "example.com" "out.txt" initial).1 = ∅.
Proof.
  rewrite (proj2 (missing_wordlist_aborts not_found_env "example.com" "out.txt"
                    initial eq_refl)).
  split; reflexivity.
Defined.

(** ** What a run touches *)

Lemma keeps_files_ret {A} (a : A) : keeps_files (ret a).
Proof. done. Qed.

Lemma keeps_files_lift {A} (r : result A) : keeps_files (lift r).
Proof. done. Qed.

Lemma keeps_files_print_obj a : keeps_files (print_obj a).
Proof. done. Qed.

Lemma keeps_files_print s : keeps_files (print s).
Proof. done. Qed.

Lemma keeps_files_bind {A B} (m : M A) (k : A → M B) :
  keeps_files m → (∀ a, keeps_files (k a)) → keeps_files (bind m k).
Proof.
  intros Hm Hk st. unfold bind. specialize (Hm st).
  destruct (m st) as [st' [a|ex]]; simpl in *; [|done].
  by rewrite Hk.
Qed.

Lemma keeps_files_for_each {A} (l : list A) (body : A → M unit) :
  (∀ x, keeps_files (body x)) → keeps_files (for_each l body).
Proof.
  intros Hbody. induction l as [|x l IH]; simpl; [apply keeps_files_ret|].
  by apply keeps_files_bind.
Qed.

Lemma keeps_files_brute_force e domain : keeps_files (brute_force_subdomains e domain).
Proof. intros st. by rewrite brute_force_run_pure. Qed.

Lemma keeps_files_adapter e p domain : keeps_files (adapter e p domain).
Proof. intros st. by rewrite adapter_run. Qed.

Lemma keeps_lookups_ret {A} (a : A) : keeps_lookups (ret a).
Proof. done. Qed.

Lemma keeps_lookups_lift {A} (r : result A) : keeps_lookups (lift r).
Proof. done. Qed.

Lemma keeps_lookups_print_obj a : keeps_lookups (print_obj a).
Proof. done. Qed.

Lemma keeps_lookups_print s : keeps_lookups (print s).
Proof. done. Qed.

Lemma keeps_lookups_write path data : keeps_lookups (write path data).
Proof. done. Qed.

Lemma keeps_lookups_open_w e path : keeps_lookups (open_w e path).
Proof. intros st. unfold open_w. by destruct (writable e path). Qed.

Lemma keeps_lookups_bind {A B} (m : M A) (k : A → M B) :
  keeps_lookups m → (∀ a, keeps_lookups (k a)) → keeps_lookups (bind m k).
Proof.
  intros Hm Hk st. unfold bind. specialize (Hm st).
  destruct (m st) as [st' [a|ex]]; simpl in *; [|done].
  by rewrite Hk.
Qed.

Lemma keeps_lookups_for_each {A} (l : list A) (body : A → M unit) :
  (∀ x, keeps_lookups (body x)) → keeps_lookups (for_each l body).
Proof.
  intros Hbody. induction l as [|x l IH]; simpl; [apply keeps_lookups_ret|].
  by apply keeps_lookups_bind.
Qed.

Lemma keeps_lookups_adapter e p domain : keeps_lookups (adapter e p domain).
Proof. intros st. by rewrite adapter_run. Qed.

(** What follows a computation and issues no lookup of its own leaves the
    lookups of that computation. *)
Lemma bind_lookups {A B} (m : M A) (k : A → M B) st :
  (∀ a, keeps_lookups (k a)) → lookups (bind m k st).1 = lookups (m st).1.
Proof.
  intros Hk. unfold bind. destruct (m st) as [st' [a|ex]]; simpl; [|done].
  apply Hk.
Qed.

Lemma writes_only_keeps {A} output (m : M A) : keeps_files m → writes_only output m.
Proof. intros Hm st path _. by rewrite Hm. Qed.

Lemma writes_only_bind {A B} output (m : M A) (k : A → M B) :
  writes_only output m → (∀ a, writes_only output (k a)) →
  writes_only output (bind m k).
Proof.
  intros Hm Hk st path Hpath. unfold bind. specialize (Hm st path Hpath).
  destruct (m st) as [st' [a|ex]]; simpl in *; [|done].
  by rewrite Hk.
Qed.

Lemma writes_only_for_each {A} output (l : list A) (body : A → M unit) :
  (∀ x, writes_only output (body x)) → writes_only output (for_each l body).
Proof.
  intros Hbody. induction l as [|x l IH]; simpl.
  - apply writes_only_keeps, keeps_files_ret.
  - by apply writes_only_bind.
Qed.

Lemma writes_only_open_w e output : writes_only output (open_w e output).
Proof.
  intros st path Hpath. unfold open_w. destruct (writable e output); [|done].
  simpl. by rewrite lookup_insert_ne.
Qed.

Lemma writes_only_write output data : writes_only output (write output data).
Proof. intros st path Hpath. simpl. by rewrite lookup_insert_ne. Qed.

Ltac frame_step :=
  first
    [ apply keeps_files_print | apply keeps_files_print_obj
    | apply keeps_files_lift | apply keeps_files_ret
    | apply keeps_files_brute_force
    | apply (keeps_files_adapter _ CrtSh) | apply (keeps_files_adapter _ HackerTarget)
    | apply (keeps_files_adapter _ AlienVault) | apply (keeps_files_adapter _ UrlScan)
    | apply keeps_files_for_each; intros ?
    | apply keeps_files_bind; [|intros ?]
    | apply keeps_lookups_print | apply keeps_lookups_print_obj
    | apply keeps_lookups_lift | apply keeps_lookups_ret
    | apply keeps_lookups_write | apply keeps_lookups_open_w
    | apply (keeps_lookups_adapter _ CrtSh) | apply (keeps_lookups_adapter _ HackerTarget)
    | apply (keeps_lookups_adapter _ AlienVault) | apply (keeps_lookups_adapter _ UrlScan)
    | apply keeps_lookups_for_each; intros ?
    | apply keeps_lookups_bind; [|intros ?] ].

Lemma keeps_files_enumerate e domain : keeps_files (enumerate_subdomains e domain).
Proof. unfold enumerate_subdomains. cbv zeta. repeat frame_step. Qed.

Lemma keeps_lookups_save_results e subdomains output :
  keeps_lookups (save_results e subdomains output).
Proof. unfold save_results. repeat frame_step. Qed.

Lemma writes_only_save_results e subdomains output :
  writes_only output (save_results e subdomains output).
Proof.
  unfold save_results.
  apply writes_only_bind; [apply writes_only_open_w|intros _].
  apply writes_only_bind; [apply writes_only_keeps, keeps_files_lift|intros subs].
  apply writes_only_bind; [|intros _; apply writes_only_keeps, keeps_files_print].
  apply writes_only_for_each. intros sub.
  apply writes_only_bind; [apply writes_only_keeps, keeps_files_lift|intros data].
  apply writes_only_write.
Qed.

(** X12: whatever the environment answers and however the run ends, the
    Aggregator changes no file at all, and the whole run changes no file
    but the output file. *)
Theorem run_writes_only_output e domain output st path :
  path ≠ output →
  fs (enumerate_subdomains e domain st).1 = fs st ∧
  fs (main e domain output st).1 !! path = fs st !! path.
Proof.
  intros Hpath. split; [apply keeps_files_enumerate|].
  revert st path Hpath. change (writes_only output (main e domain output)).
  unfold main. apply writes_only_bind.
  - apply writes_only_keeps, keeps_files_enumerate.
  - intros subdomains. apply writes_only_save_results.
Qed.

Lemma run_writes_only_output_witness :
  fs (main mixed_env "example.com" "out.txt" example_state).1 !! WORDLIST
  = fs example_state !! WORDLIST.
Proof.
  assert (Hpath : WORDLIST ≠ "out.txt") by done.
  exact (proj2 (run_writes_only_output mixed_env "example.com" "out.txt"
                  example_state WORDLIST Hpath)).
Defined.

(** X13: when the wordlist can be read, the DNS lookups of a whole run are
    those of the brute force, one per line of the wordlist, however the run
    ends: no adapter and no later phase issues a lookup, and no failure
    stops the lookups already submitted. *)
Theorem run_lookups e domain output st content :
  fs st !! WORDLIST = Some content →
  lookups (main e domain output st).1
    = lookups st ++ candidates domain (wordlist_lines content).
Proof.
  intros Hfile. unfold main.
  rewrite bind_lookups by (intros ?; apply keeps_lookups_save_results).
  unfold enumerate_subdomains. cbv zeta.
  do 2 (erewrite bind_ok by apply print_run).
  rewrite bind_lookups by (intros ?; repeat frame_step).
  by rewrite (brute_force_lookups _ _ _ content).
Qed.

Lemma run_lookups_witness :
  lookups (main mixed_env "example.com" "out.txt" example_state).1
    = ["www.example.com"; "mail.example.com"; ".example.com"].
Proof.
  exact (run_lookups mixed_env "example.com" "out.txt" example_state _ eq_refl).
Defined.

(** ** Whole runs *)

Lemma collect_pure_none futures found :
  Forall (λ f, f.2 = Ok false) futures → collect_pure futures found = ([], Ok found).
Proof.
  induction 1 as [|[sub r] rest Hr _ IH]; [done|].
  simpl in Hr. subst r. done.
Qed.

Lemma brute_force_none_resolves e domain st content :
  fs st !! WORDLIST = Some content →
  (∀ sub, sub ∈ candidates domain (wordlist_lines content) → verdict e sub = Ok false) →
  (brute_force_subdomains e domain st).2 = Ok [].
Proof.
  intros Hfile Hnone. rewrite brute_force_run, Hfile. cbn [snd].
  rewrite collect_pure_none; [done|].
  apply Forall_forall. intros f Hf. rewrite as_completed_Permutation in Hf.
  unfold futures_of in Hf. apply list_elem_of_fmap in Hf as (sub & -> & Hsub).
  by apply Hnone.
Qed.

Lemma sorted_strings_empty : sorted_strings ∅ = [].
Proof. unfold sorted_strings. by rewrite elements_empty. Qed.

(** X14: when no candidate of the wordlist resolves and the four adapters
    return the empty set, the run ends normally and leaves an empty output
    file. *)
Theorem empty_run_writes_empty_file e domain output st content :
  fs st !! WORDLIST = Some content →
  (∀ sub, sub ∈ candidates domain (wordlist_lines content) → verdict e sub = Ok false) →
  (∀ p, contribution e p domain = Ok ∅) →
  writable e output = true →
  (main e domain output st).2 = Ok () ∧
  fs (main e domain output st).1 = <[output := ""]> (fs st).
Proof.
  intros Hfile Hnone Hempty Hw.
  pose proof (brute_force_none_resolves _ _ _ _ Hfile Hnone) as Hbf.
  assert (Hp : ∀ p, contribution e p domain = Ok (set_map AStr (∅ : gset string))).
  { intros p. by rewrite set_map_AStr_empty. }
  destruct (main_run e domain output st [] ∅ ∅ ∅ ∅ Hbf (Hp _) (Hp _) (Hp _) (Hp _) Hw)
    as [Hok Hfs].
  split; [done|]. rewrite Hfs.
  assert (list_to_set [] ∪ ∅ ∪ ∅ ∪ ∅ ∪ ∅ =@{gset string} ∅) as ->
    by (rewrite list_to_set_nil; set_eq_tauto).
  by rewrite sorted_strings_empty.
Qed.

Lemma empty_run_writes_empty_file_witness :
  (main quiet_env "example.com" "out.txt" example_state).2 = Ok () ∧
  fs (main quiet_env "example.com" "out.txt" example_state).1 !! "out.txt" = Some "".
Proof.
  assert (Hnone : ∀ sub, sub ∈ candidates "example.com" (wordlist_lines "www
mail

") → verdict quiet_env sub = Ok false) by done.
  assert (Hempty : ∀ p, contribution quiet_env p "example.com" = Ok ∅)
    by (by intros []).
  destruct (empty_run_writes_empty_file quiet_env "example.com" "out.txt"
              example_state _ eq_refl Hnone Hempty eq_refl) as [Hok Hfs].
  split; [exact Hok|]. rewrite Hfs. apply lookup_insert_eq.
Defined.

Lemma main_raises e domain output st ex :
  (enumerate_subdomains e domain st).2 = Raise ex →
  (main e domain output st).2 = Raise ex ∧
  fs (main e domain output st).1 = fs st.
Proof.
  intros Hex. unfold main, bind.
  pose proof (keeps_files_enumerate e domain st) as Hfs.
  destruct (enumerate_subdomains e domain st) as [st' [a|ex']]; simpl in *; [done|].
  by injection Hex as ->.
Qed.

Lemma is_ok_result {A} (r : result A) : is_ok r = true → ∃ a, r = Ok a.
Proof. destruct r; [eauto|done]. Qed.

(** X15: an exception that an adapter does not absorb (a [KeyError], a
    [TypeError], an [AttributeError]) ends the run: when the brute force
    and the adapters before it return, the run raises that exception, the
    later adapters are not called upon and no file is written. *)
Theorem adapter_exception_aborts_run e domain output st found p ex :
  (brute_force_subdomains e domain st).2 = Ok found →
  Forall (λ q, is_ok (contribution e q domain) = true) (earlier p) →
  contribution e p domain = Raise ex →
  (main e domain output st).2 = Raise ex ∧
  fs (main e domain output st).1 = fs st.
Proof.
  intros Hbf Hearlier Hp. apply main_raises.
  rewrite brute_force_run_pure in Hbf. simpl in Hbf.
  unfold enumerate_subdomains. cbv zeta.
  change (crtsh_enum e domain) with (adapter e CrtSh domain).
  change (hackertarget_enum e domain) with (adapter e HackerTarget domain).
  change (alienvault_enum e domain) with (adapter e AlienVault domain).
  change (urlscan_enum e domain) with (adapter e UrlScan domain).
  do 2 (erewrite bind_ok by apply print_run).
  erewrite bind_ok by (rewrite brute_force_run_pure; simpl; by rewrite Hbf).
  erewrite bind_ok by apply print_run.
  destruct p; simpl in Hearlier.
  - by erewrite bind_raise by (rewrite adapter_run, Hp; reflexivity).
  - apply Forall_cons in Hearlier as [[A HA]%is_ok_result _].
    erewrite bind_ok by (rewrite adapter_run, HA; reflexivity).
    erewrite bind_ok by apply print_run.
    by erewrite bind_raise by (rewrite adapter_run, Hp; reflexivity).
  - apply Forall_cons in Hearlier as [[A HA]%is_ok_result Hearlier].
    apply Forall_cons in Hearlier as [[B HB]%is_ok_result _].
    erewrite bind_ok by (rewrite adapter_run, HA; reflexivity).
    erewrite bind_ok by apply print_run.
    erewrite bind_ok by (rewrite adapter_run, HB; reflexivity).
    erewrite bind_ok by apply print_run.
    by erewrite bind_raise by (rewrite adapter_run, Hp; reflexivity).
  - apply Forall_cons in Hearlier as [[A HA]%is_ok_result Hearlier].
    apply Forall_cons in Hearlier as [[B HB]%is_ok_result Hearlier].
    apply Forall_cons in Hearlier as [[C HC]%is_ok_result _].
    erewrite bind_ok by (rewrite adapter_run, HA; reflexivity).
    erewrite bind_ok by apply print_run.
    erewrite bind_ok by (rewrite adapter_run, HB; reflexivity).
    erewrite bind_ok by apply print_run.
    erewrite bind_ok by (rewrite adapter_run, HC; reflexivity).
    erewrite bind_ok by apply print_run.
    by erewrite bind_raise by (rewrite adapter_run, Hp; reflexivity).
Qed.

Lemma adapter_exception_aborts_run_witness :
  (main missing_field_env "example.com" "out.txt" example_state).2
    = Raise (KeyError "name_value") ∧
  fs (main missing_field_env "example.com" "out.txt" example_state).1
    = fs example_state.
Proof.
  exact (adapter_exception_aborts_run missing_field_env "example.com" "out.txt"
           example_state ["www.example.com"] CrtSh (KeyError "name_value")
           eq_refl (List.Forall_nil _) eq_refl).
Defined.

(** ** The Writer: values that are not strings, and writing twice *)

Lemma sortable_no_string l a :
  sortable l = true → a ∈ l → is_str a = false →
  Forall (λ x, is_str x = false) l.
Proof.
  unfold sortable. intros Hs Ha Hstr.
  apply orb_true_iff in Hs as [Hs|Hint].
  - apply orb_true_iff in Hs as [Hlen|Hall].
    + apply Nat.leb_le in Hlen. destruct l as [|x [|y l]]; simpl in Hlen; try lia.
      * by apply elem_of_nil in Ha.
      * apply list_elem_of_singleton in Ha as ->. by constructor.
    + rewrite forallb_forall in Hall. apply list_elem_of_In, Hall in Ha. congruence.
  - rewrite forallb_forall in Hint. apply Forall_forall. intros x Hx.
    apply list_elem_of_In, Hint in Hx. by destruct x.
Qed.

(** X16: a value that is not a string in the set (a number or a null that
    a provider gave as hostname) makes the Writer raise [TypeError]; the
    output file has been opened by then, and is left empty. *)
Theorem save_results_rejects_non_strings e (subdomains : gset atom) output st a :
  writable e output = true →
  a ∈ subdomains →
  is_str a = false →
  save_results e subdomains output st = (with_file st output "", Raise TypeError).
Proof.
  intros Hw Ha Hstr. unfold save_results.
  erewrite bind_ok by (unfold open_w; by rewrite Hw).
  fold (with_file st output "").
  unfold py_sorted. destruct (sortable (elements subdomains)) eqn:Hsortable.
  - erewrite bind_ok by reflexivity.
    assert (Hall : Forall (λ x, is_str x = false)
                     (merge_sort atom_le (elements subdomains))).
    { rewrite merge_sort_Permutation.
      apply (sortable_no_string _ a); [done|by apply elem_of_elements|done]. }
    assert (Hin : a ∈ merge_sort atom_le (elements subdomains)).
    { rewrite merge_sort_Permutation. by apply elem_of_elements. }
    destruct (merge_sort atom_le (elements subdomains)) as [|x l].
    + by apply elem_of_nil in Hin.
    + apply Forall_cons in Hall as [Hx _].
      erewrite bind_raise; [done|]. cbn [for_each].
      erewrite bind_raise; [done|].
      erewrite bind_raise; [done|]. by destruct x.
  - by erewrite bind_raise by reflexivity.
Qed.

Lemma save_results_rejects_non_strings_witness :
  save_results not_found_env {[AInt 5]} "out.txt" example_state
  = (with_file example_state "out.txt" "", Raise TypeError).
Proof.
  assert (Ha : AInt 5 ∈ ({[AInt 5]} : gset atom)) by (by apply elem_of_singleton).
  exact (save_results_rejects_non_strings not_found_env {[AInt 5]} "out.txt"
           example_state (AInt 5) eq_refl Ha eq_refl).
Defined.

(** X17: the Writer replaces, it does not append: after two calls on the
    same path the file holds what the second call alone would have
    written. *)
Theorem save_results_twice e (old new : gset string) output st :
  writable e output = true →
  fs (save_results e (set_map AStr new) output
        (save_results e (set_map AStr old) output st).1).1
  = fs (save_results e (set_map AStr new) output st).1.
Proof.
  intros Hw. rewrite !(save_results_run _ _ _ _ Hw). simpl.
  apply insert_insert_eq.
Qed.

Lemma save_results_twice_witness :
  fs (save_results not_found_env (set_map AStr ({["b.example.com"]} : gset string)) "out.txt"
        (save_results not_found_env (set_map AStr ({["a.example.com"]} : gset string))
           "out.txt" example_state).1).1
  = fs (save_results not_found_env (set_map AStr ({["b.example.com"]} : gset string))
          "out.txt" example_state).1.
Proof.
  exact (save_results_twice not_found_env {["a.example.com"]} {["b.example.com"]}
           "out.txt" example_state eq_refl).
Defined.

(** ** What is printed and what is saved *)

Lemma narration_ends_with_count e domain files all :
  ∃ pre, narration e domain files all = pre ++ [count_line (size all)].
Proof.
  unfold narration, count_line. rewrite !app_assoc. by eexists.
Qed.

Lemma size_set_map_AStr (hosts : gset string) :
  size (set_map (D := gset atom) AStr hosts) = length (sorted_strings hosts).
Proof.
  unfold size, set_size; simpl.
  by rewrite elements_set_map_AStr, length_fmap, sorted_strings_Permutation.
Qed.

(** X18: in a run in which every phase returns hostnames, the number that
    the Aggregator announces is the number of hostnames it lists, the
    listing ends what it prints, and the lines of the output file are the
    hostnames of the listing, in the same order. *)
Theorem listing_is_what_is_saved e domain output st found (SA SB SC SD : gset string) :
  (brute_force_subdomains e domain st).2 = Ok found →
  contribution e CrtSh domain = Ok (set_map AStr SA) →
  contribution e HackerTarget domain = Ok (set_map AStr SB) →
  contribution e AlienVault domain = Ok (set_map AStr SC) →
  contribution e UrlScan domain = Ok (set_map AStr SD) →
  writable e output = true →
  let lines := sorted_strings (list_to_set found ∪ SA ∪ SB ∪ SC ∪ SD) in
  (∃ before, printed (enumerate_subdomains e domain st).1
             = before ++ count_line (length lines) :: (AStr <$> lines)) ∧
  fs (main e domain output st).1 !! output = Some (file_lines lines).
Proof.
  intros Hbf HA HB HC HD Hw lines. split.
  - rewrite brute_force_run_pure in Hbf. simpl in Hbf.
    erewrite (enumerate_run _ _ _ _ _ _ _ _ _ Hbf HA HB HC HD);
      [|rewrite union_AStr; apply py_sorted_strings].
    cbn [fst printed]. rewrite union_AStr. fold lines.
    destruct (narration_ends_with_count e domain (fs st)
                (set_map AStr (list_to_set found ∪ SA ∪ SB ∪ SC ∪ SD))) as [pre ->].
    rewrite size_set_map_AStr. fold lines.
    exists (printed st ++ pre). by rewrite <- !app_assoc.
  - destruct (main_run e domain output st found SA SB SC SD Hbf HA HB HC HD Hw)
      as [_ Hfs].
    rewrite Hfs. apply lookup_insert_eq.
Qed.

Lemma listing_is_what_is_saved_witness :
  (∃ before, printed (enumerate_subdomains mixed_env "example.com" example_state).1
             = before ++ count_line 1 :: [AStr "www.example.com"]) ∧
  fs (main mixed_env "example.com" "out.txt" example_state).1 !! "out.txt"
    = Some "www.example.com
".
Proof.
  exact (listing_is_what_is_saved mixed_env "example.com" "out.txt" example_state
           ["www.example.com"] ∅ {["www.example.com"]} ∅ ∅
           eq_refl eq_refl eq_refl eq_refl eq_refl eq_refl).
Defined.

(** ** Whitespace around the words of the wordlist *)

Lemma rstrip_all_space s : Str.all_space s = true → Str.rstrip s = "".
Proof.
  induction s as [|c t IH]; simpl; [done|].
  intros [Hc Ht]%andb_true_iff. by rewrite (IH Ht), Hc.
Qed.

Lemma rstrip_app_space s w :
  Str.all_space w = true → Str.rstrip (s +:+ w) = Str.rstrip s.
Proof.
  intros Hw. induction s as [|c t IH].
  - by apply rstrip_all_space.
  - change (String c t +:+ w) with (String c (t +:+ w)). simpl. by rewrite IH.
Qed.

Lemma lstrip_app_space w s :
  Str.all_space w = true → Str.lstrip (w +:+ s) = Str.lstrip s.
Proof.
  induction w as [|c t IH]; [done|].
  change (String c t +:+ s) with (String c (t +:+ s)). simpl.
  intros [Hc Ht]%andb_true_iff. rewrite Hc. by apply IH.
Qed.

Lemma strip_app_space s w :
  Str.all_space w = true → Str.strip (s +:+ w) = Str.strip s.
Proof.
  intros Hw. unfold Str.strip. induction s as [|c t IH].
  - change ("" +:+ w) with w. by rewrite (lstrip_all_space _ Hw).
  - change (String c t +:+ w) with (String c (t +:+ w)). simpl.
    destruct (Str.is_space c); [done|].
    change (String c (t +:+ w)) with (String c t +:+ w).
    by apply rstrip_app_space.
Qed.

(** X19: whitespace before and after the word of a wordlist line (spaces,
    tabs, a carriage return before the newline, the newline itself) does
    not change the candidate that is looked up. *)
Theorem candidate_ignores_surrounding_whitespace domain before word after :
  Str.all_space before = true →
  Str.all_space after = true →
  candidates domain [before +:+ word +:+ after] = candidates domain [word].
Proof.
  intros Hb Ha. unfold candidates. simpl. do 2 f_equal.
  unfold Str.strip at 1. rewrite (lstrip_app_space _ _ Hb).
  fold (Str.strip (word +:+ after)). by apply strip_app_space.
Qed.

Lemma candidate_ignores_surrounding_whitespace_witness :
  candidates "example.com" ["  " +:+ "www" +:+ String "013" (String Str.LF "")]
  = candidates "example.com" ["www"].
Proof.
  exact (candidate_ignores_surrounding_whitespace "example.com" "  " "www"
           (String "013" (String Str.LF "")) eq_refl eq_refl).
Defined.

(** ** A whole run, end to end *)

Lemma brute_force_returns e domain st content :
  fs st !! WORDLIST = Some content →
  (∀ sub, sub ∈ candidates domain (wordlist_lines content) →
          is_ok (verdict e sub) = true) →
  ∃ found,
    (brute_force_subdomains e domain st).2 = Ok found ∧
    found ≡ₚ filter (λ sub, verdict e sub = Ok true)
               (candidates domain (wordlist_lines content)).
Proof.
  intros Hfile Hall. rewrite brute_force_run, Hfile. cbn [snd].
  set (futures := as_completed (completion e)
                    (futures_of e (candidates domain (wordlist_lines content)))).
  assert (Hok : is_ok (collect_pure futures []).2 = true).
  { apply collect_pure_total. apply Forall_forall. intros f Hf.
    unfold futures in Hf. rewrite as_completed_Permutation in Hf.
    unfold futures_of in Hf. apply list_elem_of_fmap in Hf as (sub & -> & Hsub).
    by apply Hall. }
  destruct (collect_pure futures []).2 as [found|ex] eqn:Hfound; [|done].
  exists found. split; [done|].
  apply collect_pure_found in Hfound as ->. simpl.
  rewrite <- resolved_futures. unfold futures.
  by rewrite as_completed_Permutation.
Qed.

(** X20: a whole run, end to end.  When the wordlist can be read, no
    lookup raises an exception that the Resolver does not catch, the four
    adapters return hostnames and the output path is writable, the run
    ends normally and the output file holds, sorted and once each, the
    candidates that resolve and the hostnames of the adapters; the order
    in which the pool completes has no influence on it. *)
Theorem run_output e domain output st content (SA SB SC SD : gset string) :
  fs st !! WORDLIST = Some content →
  (∀ sub, sub ∈ candidates domain (wordlist_lines content) →
          is_ok (verdict e sub) = true) →
  contribution e CrtSh domain = Ok (set_map AStr SA) →
  contribution e HackerTarget domain = Ok (set_map AStr SB) →
  contribution e AlienVault domain = Ok (set_map AStr SC) →
  contribution e UrlScan domain = Ok (set_map AStr SD) →
  writable e output = true →
  let resolved := filter (λ sub, verdict e sub = Ok true)
                    (candidates domain (wordlist_lines content)) in
  (main e domain output st).2 = Ok () ∧
  fs (main e domain output st).1 =
    <[output := file_lines (sorted_strings
                  (list_to_set resolved ∪ SA ∪ SB ∪ SC ∪ SD))]> (fs st).
Proof.
  intros Hfile Hall HA HB HC HD Hw resolved.
  destruct (brute_force_returns _ _ _ _ Hfile Hall) as (found & Hbf & Hperm).
  fold resolved in Hperm.
  destruct (main_run e domain output st found SA SB SC SD Hbf HA HB HC HD Hw)
    as [Hok Hfs].
  split; [done|]. rewrite Hfs. do 3 f_equal.
  apply set_eq. intros h. rewrite !elem_of_union, !elem_of_list_to_set.
  by rewrite Hperm.
Qed.

Lemma run_output_witness :
  (main mixed_env "example.com" "out.txt" example_state).2 = Ok () ∧
  fs (main mixed_env "example.com" "out.txt" example_state).1 !! "out.txt"
    = Some "www.example.com
".
Proof.
  assert (Hall : ∀ sub, sub ∈ candidates "example.com" (wordlist_lines "www
mail

") → is_ok (verdict mixed_env sub) = true).
  { intros sub Hsub. unfold verdict, is_resolvable. simpl.
    by destruct (decide (sub = "www.example.com")). }
  assert (Hnone : ∀ p, p ≠ HackerTarget →
            contribution mixed_env p "example.com" = Ok (set_map AStr (∅ : gset string))).
  { by intros [] ?. }
  assert (Hone : contribution mixed_env HackerTarget "example.com"
                 = Ok (set_map AStr ({["www.example.com"]} : gset string)))
    by reflexivity.
  destruct (run_output mixed_env "example.com" "out.txt" example_state _
              ∅ {["www.example.com"]} ∅ ∅
              eq_refl Hall (Hnone CrtSh ltac:(done)) Hone
              (Hnone AlienVault ltac:(done)) (Hnone UrlScan ltac:(done)) eq_refl)
    as [Hok Hfs].
  split; [exact Hok|]. rewrite Hfs, lookup_insert_eq. reflexivity.
Defined.
